(** * ini_file: a line-oriented INI editor (files/ini_file.py)

    Shallow embedding of the [IniFile] class of the Ansible module
    [ini_file] and of the part of [do_ini] that persists a document.

    Modelling conventions.
    - The module is Python 2 code run on a POSIX target: a [str] is a byte
      string, modelled as [string]; [str.strip] and the regex class [\s]
      both use the ASCII whitespace set (tab, LF, VT, FF, CR, space); a file
      opened with [open(path)] is read without newline translation.
    - A Python value that may be [None] ([section], [option], [value],
      [cur_section], the result of [get_option]) is a [pyval]; the [%s]
      conversion of [None] is the text [None].
    - [self.lines] is a [list string].  Iterating a [str] yields its
      one-character strings, so a slice assignment or an [extend] whose
      right-hand side is a [str] splices one list element per character.
    - Each [for lineno in range(len(self.lines))] loop is a structural
      recursion over the suffix of the lines still to visit, carrying the
      loop variables; the document is mutated only immediately before a
      [return], so the whole list is passed along unchanged. *)

From Stdlib Require Import String Ascii List Bool Arith ZArith Lia.
Import ListNotations.
Open Scope string_scope.

(** ** Python values and strings *)

Definition pyval := option string.

Definition pyval_eqb (a b : pyval) : bool :=
  match a, b with
  | None, None => true
  | Some x, Some y => String.eqb x y
  | _, _ => false
  end.

(** [%s] conversion. *)
Definition str_of (v : pyval) : string :=
  match v with
  | Some s => s
  | None => "None"
  end.

Definition LF : ascii := ascii_of_nat 10.
Definition nl : string := String LF "".

Definition is_space (c : ascii) : bool :=
  match nat_of_ascii c with
  | 9 | 10 | 11 | 12 | 13 | 32 => true
  | _ => false
  end.

Fixpoint lstrip (s : string) : string :=
  match s with
  | "" => ""
  | String c s' => if is_space c then lstrip s' else s
  end.

Fixpoint rstrip (s : string) : string :=
  match s with
  | "" => ""
  | String c s' =>
      match rstrip s' with
      | "" => if is_space c then "" else String c ""
      | r => String c r
      end
  end.

(** [str.strip()] *)
Definition strip (s : string) : string := rstrip (lstrip s).

(** [str.startswith(p)] *)
Definition startswith (p s : string) : bool := String.prefix p s.

(** The longest prefix whose characters satisfy [p], and the rest: what a
    greedy character-class repetition consumes. *)
Fixpoint span (p : ascii -> bool) (s : string) : string * string :=
  match s with
  | "" => ("", "")
  | String c s' =>
      if p c then let (a, b) := span p s' in (String c a, b)
      else ("", s)
  end.

(** Iterating a [str]: its one-character strings. *)
Fixpoint chars (s : string) : list string :=
  match s with
  | "" => []
  | String c s' => String c "" :: chars s'
  end.

(** ** The two line patterns *)

Definition opt_char (c : ascii) : bool :=
  negb (is_space c || Ascii.eqb c "=").

Definition not_rbracket (c : ascii) : bool := negb (Ascii.eqb c "]").

Definition not_newline (c : ascii) : bool := negb (Ascii.eqb c LF).

(** [rx_option]: a group of one or more characters other than whitespace
    and [=], optional whitespace, [=], optional whitespace, and a second
    group taking every character up to the first line feed.  Used with
    [match]: the groups 1 and 2 when the pattern matches at the start of
    [line].  Every repetition before the last is followed by something its
    class excludes, so the greedy choice is the only one that can match. *)
Definition rx_option (line : string) : option (string * string) :=
  let (opt, r1) := span opt_char line in
  match opt with
  | "" => None
  | String _ _ =>
      match lstrip r1 with
      | String "=" r2 => Some (opt, fst (span not_newline (lstrip r2)))
      | _ => None
      end
  end.

(** [rx_section]: an opening bracket, a group of one or more characters
    other than a closing bracket, and a closing bracket.  Used with
    [match]: group 1 when the pattern matches at the start of [line]. *)
Definition rx_section (line : string) : option string :=
  match line with
  | String "[" r =>
      let (name, r1) := span not_rbracket r in
      match name, r1 with
      | String _ _, String _ _ => Some name
      | _, _ => None
      end
  | _ => None
  end.

(** ** List operations of the source *)

(** [l[i:i] = xs] *)
Definition slice_insert {A} (i : nat) (xs l : list A) : list A :=
  firstn i l ++ xs ++ skipn i l.

(** [del l[a:b]] *)
Definition del_slice {A} (a b : nat) (l : list A) : list A :=
  firstn a l ++ skipn (Nat.max a b) l.

(** [l[i] = x]; every use in the source has [i < len(l)]. *)
Fixpoint list_set {A} (i : nat) (x : A) (l : list A) : list A :=
  match l, i with
  | [], _ => []
  | _ :: t, O => x :: t
  | h :: t, S j => h :: list_set j x t
  end.

(** [del l[i]]; every use in the source has [i < len(l)]. *)
Definition del_index {A} (i : nat) (l : list A) : list A :=
  firstn i l ++ skipn (S i) l.

(** ** Storage *)

(** A file system: the content of the regular file at a path, if any. *)
Definition FS := string -> option string.

(** [file.readlines()]: the lines with their terminators. *)
Fixpoint readlines (s : string) : list string :=
  match s with
  | "" => []
  | String c s' =>
      if Ascii.eqb c LF then String c "" :: readlines s'
      else match readlines s' with
           | [] => [String c ""]
           | l :: ls => String c l :: ls
           end
  end.

(** What [file.writelines(lines)] writes. *)
Definition serialize (lines : list string) : string := String.concat "" lines.

(** ** class IniFile *)

Record IniFile := mkIniFile { filepath : string; lines : list string }.

Definition with_lines (self : IniFile) (ls : list string) : IniFile :=
  mkIniFile (filepath self) ls.

(** [IniFile.__init__] *)
Definition IniFile_init (fs : FS) (path : string) : IniFile :=
  match fs path with
  | Some content => mkIniFile path (readlines content)
  | None => mkIniFile path []
  end.

Inductive pyerror := NameError (name : string) | IOError (msg : string).

(** [IniFile.save].  The body is [f = open(filepath)] followed by
    [f.writelines(self.lines)]: [filepath] is a free name of the method
    (neither a local nor an attribute access), looked up among the module
    globals [globals]; [open] is called without a mode, so the file is
    opened for reading. *)
Definition save (globals : string -> option string) (self : IniFile) (fs : FS)
  : pyerror + FS :=
  match globals "filepath" with
  | None => inl (NameError "filepath")
  | Some p =>
      match fs p with
      | None => inl (IOError "No such file or directory")
      | Some _ => inl (IOError "File not open for writing")
      end
  end.

(** The rendering ["%s = %s\n" % (option, value)]. *)
Definition option_line (option value : pyval) : string :=
  str_of option ++ " = " ++ str_of value ++ nl.

(** The rendering ["[%s]\n" % section]. *)
Definition section_line (section : pyval) : string :=
  "[" ++ str_of section ++ "]" ++ nl.

Definition is_comment (line : string) : bool :=
  startswith "#" line || startswith ";" line.

Section Methods.

Variables (section option : pyval).

(** The loop of [get_option]. *)
Fixpoint get_option_loop (rest : list string) (cur_section : pyval) : pyval :=
  match rest with
  | [] => None
  | l :: rest' =>
      let line := strip l in
      if (String.length line =? 0)%nat || is_comment line
      then get_option_loop rest' cur_section
      else
        match rx_option line with
        | Some (opt, value) =>
            if pyval_eqb cur_section section && pyval_eqb (Some opt) option
            then Some value
            else get_option_loop rest' cur_section
        | None =>
            match rx_section line with
            | Some name => get_option_loop rest' (Some name)
            | None => get_option_loop rest' cur_section
            end
        end
  end.

(** [IniFile.get_option]: the value returned and the object afterwards. *)
Definition get_option (self : IniFile) : pyval * IniFile :=
  (get_option_loop (lines self) None, self).

(** The loop of [del_option]: [Some] of the new lines on [return True]. *)
Fixpoint del_option_loop (all rest : list string) (lineno : nat)
  (cur_section : pyval) : Datatypes.option (list string) :=
  match rest with
  | [] => None
  | l :: rest' =>
      let line := strip l in
      if (String.length line =? 0)%nat || is_comment line
      then del_option_loop all rest' (S lineno) cur_section
      else
        match rx_option line with
        | Some (opt, _) =>
            if pyval_eqb cur_section section && pyval_eqb (Some opt) option
            then Some (del_index lineno all)
            else del_option_loop all rest' (S lineno) cur_section
        | None =>
            match rx_section line with
            | Some name => del_option_loop all rest' (S lineno) (Some name)
            | None => del_option_loop all rest' (S lineno) cur_section
            end
        end
  end.

(** [IniFile.del_option] *)
Definition del_option (self : IniFile) : bool * IniFile :=
  match del_option_loop (lines self) (lines self) 0 None with
  | Some ls => (true, with_lines self ls)
  | None => (false, self)
  end.

(** The loop of [del_section]; [section_start] is [None] or a line index. *)
Fixpoint del_section_loop (all rest : list string) (lineno : nat)
  (section_start : Datatypes.option nat) : bool * list string :=
  match rest with
  | [] =>
      match section_start with
      | Some s => (true, firstn s all)
      | None => (false, all)
      end
  | l :: rest' =>
      let line := strip l in
      match rx_section line with
      | Some name =>
          if pyval_eqb (Some name) section
          then del_section_loop all rest' (S lineno) (Some lineno)
          else
            match section_start with
            | Some s => (true, del_slice s lineno all)
            | None => del_section_loop all rest' (S lineno) section_start
            end
      | None => del_section_loop all rest' (S lineno) section_start
      end
  end.

(** [IniFile.del_section] *)
Definition del_section (self : IniFile) : bool * IniFile :=
  let (changed, ls) := del_section_loop (lines self) (lines self) 0 None in
  (changed, with_lines self ls).

Variable value : pyval.

(** The loop of [set_option]: the new lines when the loop body returns,
    otherwise [cur_section] and [last_opt_line] at the end of the loop. *)
Fixpoint set_option_loop (all rest : list string) (lineno : nat)
  (cur_section : pyval) (last_opt_line : nat)
  : list string + (pyval * nat) :=
  match rest with
  | [] => inr (cur_section, last_opt_line)
  | l :: rest' =>
      let line := strip l in
      if (String.length line =? 0)%nat
      then set_option_loop all rest' (S lineno) cur_section last_opt_line
      else if is_comment line
      then set_option_loop all rest' (S lineno) cur_section lineno
      else
        match rx_option line with
        | Some (opt, _) =>
            if pyval_eqb cur_section section && pyval_eqb (Some opt) option
            then inl (list_set lineno (option_line option value) all)
            else set_option_loop all rest' (S lineno) cur_section lineno
        | None =>
            match rx_section line with
            | Some name =>
                if pyval_eqb cur_section section
                then
                  let ins_index :=
                    if (0 <? last_opt_line)%nat then last_opt_line + 1 else 0 in
                  inl (slice_insert ins_index
                         (chars (option_line option value)) all)
                else set_option_loop all rest' (S lineno) (Some name) lineno
            | None =>
                set_option_loop all rest' (S lineno) cur_section last_opt_line
            end
        end
  end.

(** [IniFile.set_option].  After the loop [lineno] is the last index
    visited, or its initial [0] when there is no line. *)
Definition set_option (self : IniFile) : IniFile :=
  let all := lines self in
  match set_option_loop all all 0 None 0 with
  | inl ls => with_lines self ls
  | inr (cur_section, last_opt_line) =>
      let lineno := pred (length all) in
      if negb (pyval_eqb cur_section section)
      then
        let sep :=
          if (0 <? lineno)%nat
             && (Z.of_nat lineno - Z.of_nat last_opt_line <? 2)%Z
          then chars nl else [] in
        with_lines self
          (((all ++ sep) ++ chars (section_line section))
             ++ chars (option_line option value))
      else
        with_lines self
          (slice_insert (last_opt_line + 1)
             (chars (option_line option value)) all)
  end.

End Methods.

(** ** Notions used to state the properties *)

Inductive line_kind :=
| Blank
| Comment
| OptionLine (opt value : string)
| SectionLine (name : string)
| Other.

(** The tests that [get_option], [set_option] and [del_option] run on each
    line, in the order in which their loop bodies run them. *)
Definition classify (l : string) : line_kind :=
  let line := strip l in
  if (String.length line =? 0)%nat then Blank
  else if is_comment line then Comment
  else
    match rx_option line with
    | Some (opt, value) => OptionLine opt value
    | None =>
        match rx_section line with
        | Some name => SectionLine name
        | None => Other
        end
    end.

(** The classification in the words of the specification: blank, comment,
    section header, option, unclassified, in this priority order. *)
Definition classify_spec (l : string) : line_kind :=
  let line := strip l in
  if (String.length line =? 0)%nat then Blank
  else if is_comment line then Comment
  else
    match rx_section line with
    | Some name => SectionLine name
    | None =>
        match rx_option line with
        | Some (opt, value) => OptionLine opt value
        | None => Other
        end
    end.

(** The only test [del_section] runs on a line. *)
Definition header_of (l : string) : option string := rx_section (strip l).

Definition header_names (doc : list string) : list string :=
  flat_map (fun l => match header_of l with Some n => [n] | None => [] end) doc.

(** The current section once the lines of [doc] have been scanned, starting
    from [cur]. *)
Fixpoint section_after (cur : pyval) (doc : list string) : pyval :=
  match doc with
  | [] => cur
  | l :: doc' =>
      section_after
        (match classify l with SectionLine name => Some name | _ => cur end)
        doc'
  end.

(** The lines whose index [set_option] records in [last_opt_line]. *)
Definition recorded (l : string) : bool :=
  match classify l with
  | Comment | OptionLine _ _ | SectionLine _ => true
  | Blank | Other => false
  end.

(** [k] is the value of [last_opt_line] after a complete scan of [doc]:
    the index of the last recorded line, or [0] when there is none. *)
Definition last_recorded (doc : list string) (k : nat) : Prop :=
  (forall j, k < j < length doc -> recorded (nth j doc "") = false)
  /\ (k = 0 \/ (k < length doc /\ recorded (nth k doc "") = true)).

(** The document ends with a blank line. *)
Definition ends_blank (doc : list string) : bool :=
  match rev doc with
  | [] => false
  | l :: _ => (String.length (strip l) =? 0)%nat
  end.

(** The line replaced by [set_option] or removed by [del_option]: an option
    line with the requested key. *)
Definition keyed (opt : pyval) (l : string) : Prop :=
  exists o v, classify l = OptionLine o v /\ Some o = opt.

(** The first line removed by [del_section]: a header of the section. *)
Definition heads (sec : pyval) (l : string) : Prop :=
  exists n, header_of l = Some n /\ Some n = sec.

(** [last] is the index of the last recorded line among the first [n]
    lines of [all], or [0] when none of them is recorded. *)
Definition recorded_upto (all : list string) (n last : nat) : Prop :=
  (forall j, last < j < n -> recorded (nth j all "") = false)
  /\ (last = 0 \/ (last < n /\ recorded (nth last all "") = true)).

(** The names of the section headers of a document, as [get_option],
    [set_option] and [del_option] see them, in order. *)
Definition section_names (doc : list string) : list string :=
  flat_map
    (fun l => match classify l with SectionLine n => [n] | _ => [] end) doc.

(** Every character of [s] satisfies [p]. *)
Fixpoint all_chars (p : ascii -> bool) (s : string) : bool :=
  match s with
  | "" => true
  | String c s' => p c && all_chars p s'
  end.

(** The new-section case of [set_option] in the words of the
    specification: the header of the section and the canonical option line
    are appended, after a separating blank line exactly when the document
    does not already end with a blank line. *)
Definition new_section_spec (doc : list string) (section option value : pyval)
  : string :=
  serialize doc ++ (if ends_blank doc then "" else nl)
    ++ section_line section ++ option_line option value.

(** [get_option] as the specification words it: the same scan, with the
    lines classified by [classify_spec]. *)
Fixpoint get_option_loop_spec (section option : pyval) (rest : list string)
  (cur_section : pyval) : pyval :=
  match rest with
  | [] => None
  | l :: rest' =>
      match classify_spec l with
      | OptionLine opt value =>
          if pyval_eqb cur_section section && pyval_eqb (Some opt) option
          then Some value
          else get_option_loop_spec section option rest' cur_section
      | SectionLine name => get_option_loop_spec section option rest' (Some name)
      | Blank | Comment | Other =>
          get_option_loop_spec section option rest' cur_section
      end
  end.

(** ** Example documents *)

Definition ln (s : string) : string := s ++ nl.

Definition doc_ab : list string := [ln "[a]"; ln "[b]"].

Definition doc_dup : list string :=
  [ln "[a]"; ln "x=1"; ln "[b]"; ln "[a]"; ln "y=2"].

Definition doc_trailing_blank : list string := [ln "[a]"; ln "x=1"; ln ""].

Definition doc_one_line : list string := [ln "x=1"].

Definition doc_spaces : list string := [ln "[s]"; ln "a = b  "].

Definition doc_both : list string := [ln "[a]=b"; ln "x=1"].

Definition doc_three : list string :=
  [ln "[a]"; ln "x=1"; ln "[b]"; ln "y=2"; ln "[c]"; ln "z=3"].

Definition conf_content : string :=
  ln "# c" ++ ln "" ++ ln "[s]" ++ ln "  k =  v  " ++ "tail".

Definition conf_fs : FS :=
  fun p => if String.eqb p "/etc/conf" then Some conf_content else None.

(** ** do_ini *)

(** Truth value of a Python [str] or [None]. *)
Definition truthy (v : pyval) : bool :=
  match v with
  | Some s => negb (String.eqb s "")
  | None => false
  end.

(** The calls [do_ini] makes on its [module] argument. *)
Inductive module_call :=
| backup_local (filename : string)
| fail_json (msg : string).

(** [do_ini]: the value of [changed] when the body ends and the calls made
    on [module], in order.  [check_mode] is [module.check_mode]; [globals]
    and [fs] are what [IniFile.__init__] and [IniFile.save] read.  The bare
    [except] turns whatever [save] raises into the call of [fail_json]. *)
Definition do_ini (globals : string -> option string) (check_mode : bool)
    (fs : FS) (filename : string) (section option value : pyval)
    (state : string) (backup : bool) : bool * list module_call :=
  let changed := false in
  let ini := IniFile_init fs filename in
  let '(changed, ini) :=
    if String.eqb state "present" then
      if truthy option
         && negb (pyval_eqb value (fst (get_option section option ini)))
      then (true, set_option section option value ini)
      else (changed, ini)
    else (changed, ini) in
  let '(changed, ini) :=
    if String.eqb state "absent" then
      if truthy section && negb (truthy option)
      then del_section section ini
      else if truthy option
      then del_option section option ini
      else (changed, ini)
    else (changed, ini) in
  if changed && negb check_mode then
    let calls := if backup then [backup_local filename] else [] in
    match save globals ini fs with
    | inl _ => (changed, (calls ++ [fail_json ("Can't create " ++ filename)])%list)
    | inr _ => (changed, calls)
    end
  else (changed, []).

(** Further example documents. *)

Definition doc_twice : list string :=
  [ln "# c"; ln "[s]"; ln "k = 1"; ln "k = 2"; ln "[t]"; ln "k = 3"].

Definition doc_last : list string :=
  [ln "[a]"; ln "x=1"; ln "[b]"; ln "y=2"; ln ""; ln "junk"].

Definition doc_inner : list string :=
  [ln "# top"; ln "[a]"; ln "x=1"; ln ""; ln "[b]"; ln "y=2"].

Definition doc_fs : FS :=
  fun p => if String.eqb p "/etc/conf" then Some (serialize doc_three) else None.

Definition doc_two_lines : list string := [ln "# c"; ln "x=1"].

(** ** Notions used to state what an operation touches *)

(** Line [i] of [doc] is an option line with the requested key lying in
    the requested section: the current section after the lines before it
    is [sec]. *)
Definition option_at (sec opt : pyval) (doc : list string) (i : nat) : Prop :=
  i < length doc
  /\ keyed opt (nth i doc "")
  /\ section_after None (firstn i doc) = sec.

(** Lines [i] to [j - 1] of [doc] are one section as [del_section] sees
    it: line [i] is a header of [sec], no line strictly between [i] and
    [j] is a header, and [j] is the end of the document or a header. *)
Definition section_block (sec : pyval) (doc : list string) (i j : nat) : Prop :=
  i < j <= length doc
  /\ heads sec (nth i doc "")
  /\ (forall k, i < k < j -> header_of (nth k doc "") = None)
  /\ (j = length doc \/ header_of (nth j doc "") <> None).

(** ** Strings and lists *)

Lemma concat_cons (x : string) (xs : list string) :
  String.concat "" (x :: xs) = x ++ String.concat "" xs.
Proof.
  destruct xs as [|y ys]; simpl.
  - symmetry. induction x; simpl; congruence.
  - reflexivity.
Qed.

Lemma append_assoc (a b c : string) : (a ++ b) ++ c = a ++ b ++ c.
Proof. induction a; simpl; congruence. Qed.

Lemma append_nil_r (a : string) : a ++ "" = a.
Proof. induction a; simpl; congruence. Qed.

Lemma serialize_app (xs ys : list string) :
  serialize (xs ++ ys) = serialize xs ++ serialize ys.
Proof.
  unfold serialize. induction xs as [|x xs IH].
  - reflexivity.
  - rewrite <- app_comm_cons, !concat_cons, IH, append_assoc. reflexivity.
Qed.

Lemma serialize_chars (s : string) : serialize (chars s) = s.
Proof.
  unfold serialize. induction s as [|c s IH].
  - reflexivity.
  - cbn [chars]. rewrite concat_cons, IH. reflexivity.
Qed.

Lemma serialize_readlines (s : string) : serialize (readlines s) = s.
Proof.
  unfold serialize. induction s as [|c s IH].
  - reflexivity.
  - cbn [readlines]. destruct (Ascii.eqb c LF).
    + rewrite concat_cons, IH. reflexivity.
    + destruct (readlines s) as [|l ls].
      * simpl in *. congruence.
      * rewrite concat_cons in *. simpl. congruence.
Qed.

Lemma pyval_eqb_eq (a b : pyval) : pyval_eqb a b = true <-> a = b.
Proof.
  destruct a as [x|], b as [y|]; simpl; try (split; congruence).
  rewrite String.eqb_eq. split; congruence.
Qed.

Lemma pyval_eqb_refl (a : pyval) : pyval_eqb a a = true.
Proof. apply pyval_eqb_eq. reflexivity. Qed.

Lemma pyval_eqb_neq (a b : pyval) : pyval_eqb a b = false <-> a <> b.
Proof.
  rewrite <- pyval_eqb_eq. destruct (pyval_eqb a b); split; congruence.
Qed.

(** ** Persistence *)

(** C4. Loading an existing file and serializing the line sequence without
    any mutation gives back the content of the file, byte for byte. *)
Theorem load_serialize_roundtrip (fs : FS) (path content : string) :
  fs path = Some content ->
  serialize (lines (IniFile_init fs path)) = content.
Proof.
  intros H. unfold IniFile_init. rewrite H. cbn [lines].
  apply serialize_readlines.
Qed.

Lemma load_serialize_roundtrip_witness :
  conf_fs "/etc/conf" = Some conf_content
  /\ serialize (lines (IniFile_init conf_fs "/etc/conf")) = conf_content.
Proof.
  split; [reflexivity|].
  apply (load_serialize_roundtrip conf_fs "/etc/conf"). reflexivity.
Defined.

(** C2. [save] never succeeds: whatever the module globals, the document
    and the file system, it raises, and nothing is written. *)
Theorem save_always_raises (globals : string -> option string)
    (self : IniFile) (fs : FS) :
  exists e, save globals self fs = inl e.
Proof.
  unfold save. destruct (globals "filepath") as [p|]; [|eauto].
  destruct (fs p); eauto.
Qed.

(** ** del_section *)

Lemma header_names_app (xs ys : list string) :
  header_names (xs ++ ys) = (header_names xs ++ header_names ys)%list.
Proof. unfold header_names. apply flat_map_app. Qed.

Lemma in_header_names (s : string) (doc : list string) :
  In s (header_names doc) <-> exists l, In l doc /\ header_of l = Some s.
Proof.
  unfold header_names. rewrite in_flat_map. split.
  - intros (l & Hl & Hs). exists l. split; [assumption|].
    destruct (header_of l); simpl in Hs; intuition congruence.
  - intros (l & Hl & Hs). exists l. split; [assumption|].
    rewrite Hs. simpl. auto.
Qed.

Lemma del_section_loop_skip_other (sec : pyval) (all pre rest : list string) :
  forall lineno,
    (forall l n, In l pre -> header_of l = Some n -> Some n <> sec) ->
    del_section_loop sec all (pre ++ rest) lineno None
    = del_section_loop sec all rest (lineno + length pre) None.
Proof.
  induction pre as [|l pre IH]; intros lineno Hpre.
  - simpl. f_equal. lia.
  - cbn [app del_section_loop length].
    fold (header_of l). destruct (header_of l) as [n|] eqn:Hh.
    + assert (Hn : pyval_eqb (Some n) sec = false).
      { apply pyval_eqb_neq. apply (Hpre l); simpl; auto. }
      rewrite Hn, IH by (intros; eapply Hpre; simpl; eauto).
      f_equal. lia.
    + rewrite IH by (intros; eapply Hpre; simpl; eauto). f_equal. lia.
Qed.

Lemma del_section_loop_skip_body (sec : pyval) (all body rest : list string) :
  forall lineno start,
    (forall l, In l body -> header_of l = None) ->
    del_section_loop sec all (body ++ rest) lineno start
    = del_section_loop sec all rest (lineno + length body) start.
Proof.
  induction body as [|l body IH]; intros lineno start Hbody.
  - simpl. f_equal. lia.
  - cbn [app del_section_loop length].
    fold (header_of l). rewrite (Hbody l) by (simpl; auto).
    rewrite IH by (intros; apply Hbody; simpl; auto). f_equal. lia.
Qed.

Lemma with_lines_same (self : IniFile) : with_lines self (lines self) = self.
Proof. destruct self. reflexivity. Qed.

Lemma firstn_prefix {A} (xs ys : list A) : firstn (length xs) (xs ++ ys) = xs.
Proof.
  rewrite firstn_app, Nat.sub_diag, firstn_all. simpl. apply app_nil_r.
Qed.

Lemma skipn_prefix {A} (xs ys : list A) : skipn (length xs) (xs ++ ys) = ys.
Proof.
  rewrite skipn_app, Nat.sub_diag, skipn_all. reflexivity.
Qed.

(** C10. [del_section(None)] returns false and leaves the document as it
    is, whatever the document. *)
Theorem del_section_none (self : IniFile) :
  del_section None self = (false, self).
Proof.
  unfold del_section.
  rewrite <- (app_nil_r (lines self)) at 2.
  rewrite del_section_loop_skip_other.
  - simpl. rewrite with_lines_same. reflexivity.
  - intros; discriminate.
Qed.

(** C7. In a document whose section headers have pairwise distinct names,
    [del_section] of a section that is present returns true and removes
    exactly the header of that section and the lines after it up to, not
    including, the next section header (or up to the end when there is
    none); [del_section] of a section that is absent returns false and
    leaves the document as it is. *)
Theorem del_section_scope (self : IniFile) (s : string) :
  NoDup (header_names (lines self)) ->
  (forall pre h body post,
      lines self = (pre ++ h :: body ++ post)%list ->
      header_of h = Some s ->
      (forall l, In l body -> header_of l = None) ->
      (post = [] \/ exists h' post', post = h' :: post' /\ header_of h' <> None) ->
      del_section (Some s) self = (true, with_lines self (pre ++ post)))
  /\ (~ In s (header_names (lines self)) ->
      del_section (Some s) self = (false, self)).
Proof.
  intros Hnd. split.
  - intros pre h body post Hl Hh Hbody Hpost.
    rewrite Hl, header_names_app in Hnd. cbn [header_names flat_map] in Hnd.
    rewrite Hh in Hnd. cbn [app] in Hnd. apply NoDup_remove_2 in Hnd.
    fold (header_names (body ++ post)) in Hnd.
    rewrite header_names_app in Hnd.
    assert (Hpre : forall l n, In l pre -> header_of l = Some n -> Some n <> Some s).
    { intros l n Hin Hn E. injection E as ->. apply Hnd.
      rewrite !in_app_iff. left. apply in_header_names. eauto. }
    unfold del_section. rewrite Hl at 2.
    rewrite del_section_loop_skip_other by exact Hpre.
    cbn [del_section_loop]. fold (header_of h). rewrite Hh, pyval_eqb_refl.
    rewrite del_section_loop_skip_body by exact Hbody.
    destruct Hpost as [-> | (h' & post' & -> & Hh')].
    + cbn [del_section_loop]. rewrite Hl, app_nil_r, Nat.add_0_l.
      rewrite firstn_prefix, app_nil_r. reflexivity.
    + cbn [del_section_loop]. fold (header_of h').
      destruct (header_of h') as [n'|] eqn:Hn'; [|congruence].
      assert (Hne : pyval_eqb (Some n') (Some s) = false).
      { apply pyval_eqb_neq. intros E. injection E as ->. apply Hnd.
        rewrite !in_app_iff. right. right. apply in_header_names.
        exists h'. simpl. auto. }
      rewrite Hne, Hl. unfold del_slice. rewrite Nat.add_0_l.
      rewrite firstn_prefix.
      replace (Nat.max (length pre) _)
        with (length (pre ++ h :: body)%list)
        by (rewrite length_app; simpl; lia).
      replace (pre ++ h :: body ++ h' :: post')%list
        with ((pre ++ h :: body) ++ h' :: post')%list
        by (rewrite <- app_assoc; reflexivity).
      rewrite skipn_prefix. reflexivity.
  - intros Hnot. unfold del_section.
    rewrite <- (app_nil_r (lines self)) at 2.
    rewrite del_section_loop_skip_other.
    + simpl. rewrite with_lines_same. reflexivity.
    + intros l n Hin Hn E. injection E as ->. apply Hnot.
      apply in_header_names. eauto.
Qed.

Lemma del_section_scope_witness :
  NoDup (header_names doc_three)
  /\ del_section (Some "b") (mkIniFile "f" doc_three)
     = (true, mkIniFile "f" [ln "[a]"; ln "x=1"; ln "[c]"; ln "z=3"])
  /\ del_section (Some "d") (mkIniFile "f" doc_three)
     = (false, mkIniFile "f" doc_three).
Proof.
  assert (Hnd : NoDup (header_names (lines (mkIniFile "f" doc_three)))).
  { vm_compute. repeat constructor; simpl; intuition discriminate. }
  split; [exact Hnd|].
  destruct (del_section_scope (mkIniFile "f" doc_three) "b" Hnd) as [Hb _].
  destruct (del_section_scope (mkIniFile "f" doc_three) "d" Hnd) as [_ Hd].
  split.
  - apply (Hb [ln "[a]"; ln "x=1"] (ln "[b]") [ln "y=2"] [ln "[c]"; ln "z=3"]).
    + reflexivity.
    + reflexivity.
    + intros l [<-|[]]. reflexivity.
    + right. exists (ln "[c]"), [ln "z=3"]. split; [reflexivity|].
      vm_compute. discriminate.
  - apply Hd. vm_compute. intuition discriminate.
Defined.

(** ** One step of each scan *)

Lemma get_option_loop_step (sec opt : pyval) (l : string) (rest : list string)
    (cur : pyval) :
  get_option_loop sec opt (l :: rest) cur =
  match classify l with
  | OptionLine o v =>
      if pyval_eqb cur sec && pyval_eqb (Some o) opt then Some v
      else get_option_loop sec opt rest cur
  | SectionLine n => get_option_loop sec opt rest (Some n)
  | Blank | Comment | Other => get_option_loop sec opt rest cur
  end.
Proof.
  unfold classify. cbn [get_option_loop].
  destruct (String.length (strip l) =? 0)%nat; [reflexivity|].
  cbn [orb]. destruct (is_comment (strip l)); [reflexivity|].
  destruct (rx_option (strip l)) as [[o v]|]; [reflexivity|].
  destruct (rx_section (strip l)); reflexivity.
Qed.

Lemma del_option_loop_step (sec opt : pyval) (all : list string) (l : string)
    (rest : list string) (lineno : nat) (cur : pyval) :
  del_option_loop sec opt all (l :: rest) lineno cur =
  match classify l with
  | OptionLine o _ =>
      if pyval_eqb cur sec && pyval_eqb (Some o) opt
      then Some (del_index lineno all)
      else del_option_loop sec opt all rest (S lineno) cur
  | SectionLine n => del_option_loop sec opt all rest (S lineno) (Some n)
  | Blank | Comment | Other => del_option_loop sec opt all rest (S lineno) cur
  end.
Proof.
  unfold classify. cbn [del_option_loop].
  destruct (String.length (strip l) =? 0)%nat; [reflexivity|].
  cbn [orb]. destruct (is_comment (strip l)); [reflexivity|].
  destruct (rx_option (strip l)) as [[o v]|]; [reflexivity|].
  destruct (rx_section (strip l)); reflexivity.
Qed.

Lemma set_option_loop_step (sec opt val : pyval) (all : list string)
    (l : string) (rest : list string) (lineno : nat) (cur : pyval) (last : nat) :
  set_option_loop sec opt val all (l :: rest) lineno cur last =
  match classify l with
  | Blank | Other => set_option_loop sec opt val all rest (S lineno) cur last
  | Comment => set_option_loop sec opt val all rest (S lineno) cur lineno
  | OptionLine o _ =>
      if pyval_eqb cur sec && pyval_eqb (Some o) opt
      then inl (list_set lineno (option_line opt val) all)
      else set_option_loop sec opt val all rest (S lineno) cur lineno
  | SectionLine n =>
      if pyval_eqb cur sec
      then inl (slice_insert (if (0 <? last)%nat then last + 1 else 0)
                  (chars (option_line opt val)) all)
      else set_option_loop sec opt val all rest (S lineno) (Some n) lineno
  end.
Proof.
  unfold classify. cbn [set_option_loop].
  destruct (String.length (strip l) =? 0)%nat; [reflexivity|].
  destruct (is_comment (strip l)); [reflexivity|].
  destruct (rx_option (strip l)) as [[o v]|]; [reflexivity|].
  destruct (rx_section (strip l)); reflexivity.
Qed.

Lemma del_section_loop_step (sec : pyval) (all : list string) (l : string)
    (rest : list string) (lineno : nat) (start : option nat) :
  del_section_loop sec all (l :: rest) lineno start =
  match header_of l with
  | Some n =>
      if pyval_eqb (Some n) sec
      then del_section_loop sec all rest (S lineno) (Some lineno)
      else match start with
           | Some s => (true, del_slice s lineno all)
           | None => del_section_loop sec all rest (S lineno) start
           end
  | None => del_section_loop sec all rest (S lineno) start
  end.
Proof. reflexivity. Qed.

(** ** Line classification *)

(** C5, as the code has it.  [get_option], [set_option] and [del_option]
    classify every line in the order blank, comment, option, section
    header, unclassified; [del_section] only tests the section-header
    pattern.  A line matching both patterns, such as [[a]=b], is an option
    line with key [[a]] for the first three and a header of section [a] for
    [del_section]. *)
Theorem classification_order :
  (forall sec opt l rest cur,
      get_option_loop sec opt (l :: rest) cur =
      match classify l with
      | OptionLine o v =>
          if pyval_eqb cur sec && pyval_eqb (Some o) opt then Some v
          else get_option_loop sec opt rest cur
      | SectionLine n => get_option_loop sec opt rest (Some n)
      | Blank | Comment | Other => get_option_loop sec opt rest cur
      end)
  /\ (forall sec opt val all l rest lineno cur last,
      set_option_loop sec opt val all (l :: rest) lineno cur last =
      match classify l with
      | Blank | Other => set_option_loop sec opt val all rest (S lineno) cur last
      | Comment => set_option_loop sec opt val all rest (S lineno) cur lineno
      | OptionLine o _ =>
          if pyval_eqb cur sec && pyval_eqb (Some o) opt
          then inl (list_set lineno (option_line opt val) all)
          else set_option_loop sec opt val all rest (S lineno) cur lineno
      | SectionLine n =>
          if pyval_eqb cur sec
          then inl (slice_insert (if (0 <? last)%nat then last + 1 else 0)
                      (chars (option_line opt val)) all)
          else set_option_loop sec opt val all rest (S lineno) (Some n) lineno
      end)
  /\ (forall sec opt all l rest lineno cur,
      del_option_loop sec opt all (l :: rest) lineno cur =
      match classify l with
      | OptionLine o _ =>
          if pyval_eqb cur sec && pyval_eqb (Some o) opt
          then Some (del_index lineno all)
          else del_option_loop sec opt all rest (S lineno) cur
      | SectionLine n => del_option_loop sec opt all rest (S lineno) (Some n)
      | Blank | Comment | Other =>
          del_option_loop sec opt all rest (S lineno) cur
      end)
  /\ (forall sec all l rest lineno start,
      del_section_loop sec all (l :: rest) lineno start =
      match header_of l with
      | Some n =>
          if pyval_eqb (Some n) sec
          then del_section_loop sec all rest (S lineno) (Some lineno)
          else match start with
               | Some s => (true, del_slice s lineno all)
               | None => del_section_loop sec all rest (S lineno) start
               end
      | None => del_section_loop sec all rest (S lineno) start
      end)
  /\ classify (ln "[a]=b") = OptionLine "[a]" "b"
  /\ header_of (ln "[a]=b") = Some "a".
Proof.
  split; [exact get_option_loop_step|].
  split; [exact set_option_loop_step|].
  split; [exact del_option_loop_step|].
  split; [exact del_section_loop_step|].
  split; reflexivity.
Qed.

(** C5 as stated fails on the document [[a]=b], [x=1]: under the stated
    priority the first line opens section [a], so [x] would be found in
    section [a]; [get_option] finds no such option and reads the first
    line as the option [[a]] outside any section, [del_option] deletes it
    as such, [set_option] appends a new section [a], and only
    [del_section] takes it for the header of [a]. *)
Lemma classification_order_counterexample :
  classify_spec (ln "[a]=b") = SectionLine "a"
  /\ get_option_loop_spec (Some "a") (Some "x") doc_both None = Some "1"
  /\ fst (get_option (Some "a") (Some "x") (mkIniFile "f" doc_both))
     <> get_option_loop_spec (Some "a") (Some "x") doc_both None
  /\ fst (get_option None (Some "[a]") (mkIniFile "f" doc_both)) = Some "b"
  /\ del_option None (Some "[a]") (mkIniFile "f" doc_both)
     = (true, mkIniFile "f" [ln "x=1"])
  /\ serialize (lines (set_option (Some "a") (Some "x") (Some "2")
                         (mkIniFile "f" doc_both)))
     = ln "[a]=b" ++ ln "x=1" ++ ln "" ++ ln "[a]" ++ ln "x = 2"
  /\ del_section (Some "a") (mkIniFile "f" doc_both)
     = (true, mkIniFile "f" []).
Proof.
  repeat split; try reflexivity. vm_compute. discriminate.
Qed.

(** ** set_option on concrete documents *)

(** C1 fails on the code.  In the document [[a]], [[b]] the section [a]
    exists without the option and is followed by the header of [b];
    [last_opt_line] is [0] when that header is reached, the insertion index
    is taken to be [0], and the option line is spliced in front of the
    header of its own section. *)
Theorem set_option_before_own_header :
  lines (set_option (Some "a") (Some "x") (Some "1") (mkIniFile "f" doc_ab))
  = (chars (ln "x = 1") ++ doc_ab)%list
  /\ serialize
       (lines (set_option (Some "a") (Some "x") (Some "1")
                 (mkIniFile "f" doc_ab)))
     = ln "x = 1" ++ ln "[a]" ++ ln "[b]".
Proof. split; reflexivity. Qed.

(** C3 fails on the code.  In [doc_dup] the section [a] appears twice and
    [get_option] returns the value [2] of [y] from its second occurrence.
    The first [set_option] leaves the first occurrence of [a] before
    reaching [y] and splices the characters of the option line there, one
    list element each; the second call does not recognise them as an option
    line and splices the same characters once more. *)
Theorem set_option_twice_differs :
  fst (get_option (Some "a") (Some "y") (mkIniFile "f" doc_dup)) = Some "2"
  /\ serialize
       (lines (set_option (Some "a") (Some "y") (Some "2")
                 (mkIniFile "f" doc_dup)))
     = ln "[a]" ++ ln "x=1" ++ ln "y = 2" ++ ln "[b]" ++ ln "[a]" ++ ln "y=2"
  /\ serialize
       (lines (set_option (Some "a") (Some "y") (Some "2")
                 (set_option (Some "a") (Some "y") (Some "2")
                    (mkIniFile "f" doc_dup))))
     = ln "[a]" ++ ln "x=1" ++ ln "y = 2" ++ ln "y = 2" ++ ln "[b]"
       ++ ln "[a]" ++ ln "y=2".
Proof. repeat split; reflexivity. Qed.

(** C6 fails on the code.  After the loop [lineno] is the index of the
    last line, not the number of lines, so the guard that decides on the
    separating blank line is off by one: a document that already ends
    with a blank line gets a second one, and a one-line document gets
    none although its only line is not blank, while a two-line document
    that does not end with a blank line gets one. *)
Theorem set_option_new_section_off_by_one :
  (ends_blank doc_trailing_blank = true
   /\ serialize
        (lines (set_option (Some "b") (Some "o") (Some "v")
                  (mkIniFile "f" doc_trailing_blank)))
      = serialize doc_trailing_blank ++ ln "" ++ ln "[b]" ++ ln "o = v"
   /\ serialize
        (lines (set_option (Some "b") (Some "o") (Some "v")
                  (mkIniFile "f" doc_trailing_blank)))
      <> new_section_spec doc_trailing_blank (Some "b") (Some "o") (Some "v"))
  /\ (ends_blank doc_one_line = false
      /\ serialize
           (lines (set_option (Some "b") (Some "o") (Some "v")
                     (mkIniFile "f" doc_one_line)))
         = serialize doc_one_line ++ ln "[b]" ++ ln "o = v"
      /\ serialize
           (lines (set_option (Some "b") (Some "o") (Some "v")
                     (mkIniFile "f" doc_one_line)))
         <> new_section_spec doc_one_line (Some "b") (Some "o") (Some "v"))
  /\ (ends_blank doc_two_lines = false
      /\ serialize
           (lines (set_option (Some "b") (Some "o") (Some "v")
                     (mkIniFile "f" doc_two_lines)))
         = serialize doc_two_lines ++ ln "" ++ ln "[b]" ++ ln "o = v").
Proof. repeat split; try reflexivity; vm_compute; discriminate. Qed.

(** C9 as stated fails: the stored line [a = b  ] keeps two blanks after
    the value, the pattern applied to the stored line captures them, and
    [get_option] returns the value without them. *)
Lemma get_option_raw_counterexample :
  option_map snd (rx_option (ln "a = b  ")) = Some "b  "
  /\ fst (get_option (Some "s") (Some "a") (mkIniFile "f" doc_spaces))
     = Some "b"
  /\ fst (get_option (Some "s") (Some "a") (mkIniFile "f" doc_spaces))
     <> option_map snd (rx_option (ln "a = b  ")).
Proof. repeat split; try reflexivity. vm_compute. discriminate. Qed.

(** ** What an operation leaves alone *)

Lemma list_set_splice {A} (x : A) (l : list A) :
  forall i, i < length l ->
    list_set i x l = (firstn i l ++ [x] ++ skipn (S i) l)%list.
Proof.
  induction l as [|h t IH]; intros i Hi; simpl in Hi; [lia|].
  destruct i as [|i]; [reflexivity|].
  cbn [list_set firstn skipn]. rewrite IH by lia. reflexivity.
Qed.

Lemma nth_middle_done (done rest : list string) (l : string) :
  nth (length done) (done ++ l :: rest) "" = l.
Proof. rewrite app_nth2, Nat.sub_diag by lia. reflexivity. Qed.

Lemma snoc_app {A} (done : list A) (l : A) (rest : list A) :
  (done ++ l :: rest = (done ++ [l]) ++ rest)%list.
Proof. rewrite <- app_assoc. reflexivity. Qed.

Lemma length_snoc {A} (done : list A) (l : A) :
  length (done ++ [l]) = S (length done).
Proof. rewrite length_app. simpl. lia. Qed.

Lemma section_after_app (cur : pyval) (xs ys : list string) :
  section_after cur (xs ++ ys) = section_after (section_after cur xs) ys.
Proof.
  revert cur. induction xs as [|l xs IH]; intros cur; [reflexivity|].
  cbn [app section_after]. apply IH.
Qed.

Lemma section_after_snoc (done : list string) (l : string) :
  section_after None (done ++ [l])
  = match classify l with
    | SectionLine n => Some n
    | _ => section_after None done
    end.
Proof. rewrite section_after_app. reflexivity. Qed.

Lemma option_at_done (sec opt : pyval) (done rest : list string)
    (l o v : string) :
  classify l = OptionLine o v ->
  Some o = opt ->
  section_after None done = sec ->
  option_at sec opt (done ++ l :: rest) (length done).
Proof.
  intros Hc Ho Hs. split; [rewrite length_app; simpl; lia|]. split.
  - rewrite nth_middle_done. exists o, v. auto.
  - rewrite firstn_prefix. exact Hs.
Qed.

Lemma set_option_loop_returns (sec opt val : pyval) (all : list string) :
  forall rest done cur last r,
    all = (done ++ rest)%list ->
    cur = section_after None done ->
    set_option_loop sec opt val all rest (length done) cur last = inl r ->
    (exists i, option_at sec opt all i
               /\ r = (firstn i all ++ [option_line opt val]
                         ++ skipn (S i) all)%list)
    \/ (exists i, r = (firstn i all ++ chars (option_line opt val)
                         ++ skipn i all)%list).
Proof.
  induction rest as [|l rest IH]; intros done cur last r Hall Hcur Hr.
  - discriminate.
  - rewrite set_option_loop_step in Hr.
    pose proof (IH (done ++ [l])%list) as IH'.
    rewrite length_snoc in IH'.
    pose proof (section_after_snoc done l) as Hsa. rewrite <- Hcur in Hsa.
    assert (Hall' : all = ((done ++ [l]) ++ rest)%list)
      by (rewrite <- snoc_app; exact Hall).
    destruct (classify l) as [| |o v|n|] eqn:Hc.
    + (eapply IH'; [exact Hall'|symmetry; exact Hsa|exact Hr]).
    + (eapply IH'; [exact Hall'|symmetry; exact Hsa|exact Hr]).
    + destruct (pyval_eqb cur sec && pyval_eqb (Some o) opt) eqn:Hm;
        [|(eapply IH'; [exact Hall'|symmetry; exact Hsa|exact Hr])].
      injection Hr as <-. left. exists (length done).
      apply andb_prop in Hm.
      destruct Hm as [Hs%pyval_eqb_eq Ho%pyval_eqb_eq].
      split.
      * rewrite Hall. apply (option_at_done sec opt done rest l o v Hc Ho).
        congruence.
      * apply list_set_splice. rewrite Hall, !length_app. simpl. lia.
    + destruct (pyval_eqb cur sec); [|(eapply IH'; [exact Hall'|symmetry; exact Hsa|exact Hr])].
      injection Hr as <-. right. eexists. reflexivity.
    + (eapply IH'; [exact Hall'|symmetry; exact Hsa|exact Hr]).
Qed.

Lemma del_option_loop_returns (sec opt : pyval) (all : list string) :
  forall rest done cur r,
    all = (done ++ rest)%list ->
    cur = section_after None done ->
    del_option_loop sec opt all rest (length done) cur = Some r ->
    exists i, option_at sec opt all i
              /\ r = (firstn i all ++ skipn (S i) all)%list.
Proof.
  induction rest as [|l rest IH]; intros done cur r Hall Hcur Hr.
  - discriminate.
  - rewrite del_option_loop_step in Hr.
    pose proof (IH (done ++ [l])%list) as IH'.
    rewrite length_snoc in IH'.
    pose proof (section_after_snoc done l) as Hsa. rewrite <- Hcur in Hsa.
    assert (Hall' : all = ((done ++ [l]) ++ rest)%list)
      by (rewrite <- snoc_app; exact Hall).
    destruct (classify l) as [| |o v|n|] eqn:Hc; try ((eapply IH'; [exact Hall'|symmetry; exact Hsa|exact Hr])).
    destruct (pyval_eqb cur sec && pyval_eqb (Some o) opt) eqn:Hm;
      [|(eapply IH'; [exact Hall'|symmetry; exact Hsa|exact Hr])].
    injection Hr as <-. exists (length done).
    apply andb_prop in Hm.
    destruct Hm as [Hs%pyval_eqb_eq Ho%pyval_eqb_eq].
    split; [|reflexivity].
    rewrite Hall. apply (option_at_done sec opt done rest l o v Hc Ho).
    congruence.
Qed.

Lemma del_section_loop_block (sec : pyval) (all : list string) :
  forall rest done start r,
    all = (done ++ rest)%list ->
    (forall s, start = Some s ->
       s < length done /\ heads sec (nth s all "")
       /\ forall k, s < k < length done -> header_of (nth k all "") = None) ->
    del_section_loop sec all rest (length done) start = (true, r) ->
    exists i j, section_block sec all i j
                /\ r = (firstn i all ++ skipn j all)%list.
Proof.
  induction rest as [|l rest IH]; intros done start r Hall Hst Hr.
  - cbn [del_section_loop] in Hr. destruct start as [s|]; [|discriminate].
    injection Hr as <-. destruct (Hst s eq_refl) as (Hs & Hh & Hno).
    rewrite app_nil_r in Hall. subst done.
    exists s, (length all). rewrite skipn_all, app_nil_r.
    split; [|reflexivity]. repeat split; auto with arith.
  - rewrite del_section_loop_step in Hr.
    pose proof (IH (done ++ [l])%list) as IH'.
    rewrite length_snoc in IH'.
    assert (Hlen : length done < length all).
    { rewrite Hall, !length_app. simpl. lia. }
    assert (Hall' : all = ((done ++ [l]) ++ rest)%list)
      by (rewrite <- snoc_app; exact Hall).
    assert (Hnth : nth (length done) all "" = l)
      by (rewrite Hall; apply nth_middle_done).
    destruct (header_of l) as [n|] eqn:Hh.
    + destruct (pyval_eqb (Some n) sec) eqn:Hn.
      * apply (IH' (Some (length done)) r Hall'); [|exact Hr].
        intros s [= <-]. split; [lia|]. split.
        -- rewrite Hnth. exists n. split; [exact Hh|].
           apply pyval_eqb_eq. exact Hn.
        -- intros k Hk. lia.
      * destruct start as [s|]; [|apply (IH' None r Hall'); [discriminate|exact Hr]].
        injection Hr as <-. destruct (Hst s eq_refl) as (Hs & Hhd & Hno).
        exists s, (length done). split.
        -- repeat split; try lia; auto.
           right. rewrite Hnth, Hh. discriminate.
        -- unfold del_slice. rewrite Nat.max_r by lia. reflexivity.
    + apply (IH' start r Hall'); [|exact Hr].
      intros s Hs. destruct (Hst s Hs) as (Hlt & Hhd & Hno).
      split; [lia|]. split; [exact Hhd|].
      intros k Hk. destruct (Nat.eq_dec k (length done)) as [->|Hne].
      * rewrite Hnth. exact Hh.
      * apply Hno. lia.
Qed.

Lemma del_section_loop_returns (sec : pyval) (all : list string) :
  forall rest done start r,
    all = (done ++ rest)%list ->
    (forall s, start = Some s -> s < length done /\ heads sec (nth s all "")) ->
    del_section_loop sec all rest (length done) start = (true, r) ->
    exists i j, i < j <= length all /\ heads sec (nth i all "")
                /\ r = (firstn i all ++ skipn j all)%list.
Proof.
  induction rest as [|l rest IH]; intros done start r Hall Hst Hr.
  - cbn [del_section_loop] in Hr. destruct start as [s|]; [|discriminate].
    injection Hr as <-. destruct (Hst s eq_refl) as [Hs Hh].
    exists s, (length all). rewrite skipn_all, app_nil_r.
    rewrite Hall, app_nil_r in *. auto with arith.
  - rewrite del_section_loop_step in Hr.
    pose proof (IH (done ++ [l])%list) as IH'.
    rewrite length_snoc in IH'.
    assert (Hlen : length done < length all).
    { rewrite Hall, !length_app. simpl. lia. }
    assert (Hall' : all = ((done ++ [l]) ++ rest)%list)
      by (rewrite <- snoc_app; exact Hall).
    assert (Hst' : forall s, start = Some s ->
                     s < S (length done) /\ heads sec (nth s all "")).
    { intros s Hs. destruct (Hst s Hs). auto. }
    destruct (header_of l) as [n|] eqn:Hh; [|eauto].
    destruct (pyval_eqb (Some n) sec) eqn:Hn.
    + apply (IH' (Some (length done)) r Hall'); [|exact Hr].
      intros s [= <-]. split; [lia|].
      rewrite Hall, nth_middle_done. exists n.
      split; [exact Hh|]. apply pyval_eqb_eq. exact Hn.
    + destruct start as [s|]; [|eauto].
      injection Hr as <-. destruct (Hst s eq_refl) as [Hs Hhd].
      exists s, (length done). split; [lia|]. split; [exact Hhd|].
      unfold del_slice. rewrite Nat.max_r by lia. reflexivity.
Qed.

Lemma del_section_loop_false (sec : pyval) (all : list string) :
  forall rest lineno start r,
    del_section_loop sec all rest lineno start = (false, r) -> r = all.
Proof.
  induction rest as [|l rest IH]; intros lineno start r Hr.
  - cbn [del_section_loop] in Hr. destruct start; congruence.
  - rewrite del_section_loop_step in Hr.
    destruct (header_of l); [|eauto].
    destruct (pyval_eqb _ sec); [eauto|].
    destruct start; [discriminate|eauto].
Qed.

(** C8. Each operation changes one contiguous block of lines and nothing
    else; every other line is kept, in its order.  [set_option] either
    replaces one line by the canonical line, and that line is an option
    line carrying the requested key in the requested section; or splices
    the text of the canonical line in at one position, removing nothing;
    or appends an optional line feed, the section header and the canonical
    line, removing nothing.  [del_option] removes nothing, or one option
    line carrying the requested key in the requested section.
    [del_section] removes nothing, or one section: a header of the
    requested section and the lines after it that are not headers, up to
    the next header or the end of the document.  [get_option] changes
    nothing. *)
Theorem operations_frame (self : IniFile) (sec opt val : pyval) :
  let doc := lines self in
  ((exists i, option_at sec opt doc i
      /\ lines (set_option sec opt val self)
         = (firstn i doc ++ [option_line opt val] ++ skipn (S i) doc)%list)
   \/ (exists i,
      lines (set_option sec opt val self)
      = (firstn i doc ++ chars (option_line opt val) ++ skipn i doc)%list)
   \/ (exists sep, (sep = [] \/ sep = [nl])
      /\ lines (set_option sec opt val self)
         = (doc ++ sep ++ chars (section_line sec)
              ++ chars (option_line opt val))%list))
  /\ (del_option sec opt self = (false, self)
      \/ exists i, option_at sec opt doc i
           /\ del_option sec opt self
              = (true, with_lines self (firstn i doc ++ skipn (S i) doc)))
  /\ (del_section sec self = (false, self)
      \/ exists i j, section_block sec doc i j
           /\ del_section sec self
              = (true, with_lines self (firstn i doc ++ skipn j doc)))
  /\ snd (get_option sec opt self) = self.
Proof.
  intros doc. subst doc. repeat split.
  - unfold set_option.
    destruct (set_option_loop sec opt val (lines self) (lines self) 0 None 0)
      as [r|[cur last]] eqn:Hloop.
    + destruct (set_option_loop_returns sec opt val (lines self)
                  (lines self) [] None 0 r eq_refl eq_refl Hloop) as [H|H].
      * left. exact H.
      * right. left. exact H.
    + destruct (negb (pyval_eqb cur sec)).
      * right. right. cbn [lines with_lines].
        match goal with
        | |- context [if ?c then chars nl else []] => destruct c
        end.
        -- exists [nl]. split; [auto|]. rewrite <- !app_assoc. reflexivity.
        -- exists []. split; [auto|]. rewrite <- !app_assoc. reflexivity.
      * right. left. exists (last + 1). reflexivity.
  - unfold del_option.
    destruct (del_option_loop sec opt (lines self) (lines self) 0 None)
      as [r|] eqn:Hloop; [|auto].
    right.
    destruct (del_option_loop_returns sec opt (lines self) (lines self) []
                None r eq_refl eq_refl Hloop) as (i & Hi & ->).
    exists i. auto.
  - unfold del_section.
    destruct (del_section_loop sec (lines self) (lines self) 0 None)
      as [[|] r] eqn:Hloop.
    + right.
      destruct (del_section_loop_block sec (lines self) (lines self) []
                  None r eq_refl) as (i & j & Hij & ->).
      * discriminate.
      * exact Hloop.
      * exists i, j. auto.
    + left. apply del_section_loop_false in Hloop. subst r.
      rewrite with_lines_same. reflexivity.
Qed.

(** On [doc_three] the description of what [del_section] removes leaves
    one choice: for section [a], the header on line 0 and the line after
    it. *)
Example section_block_doc_three (i j : nat) :
  section_block (Some "a") doc_three i j -> i = 0 /\ j = 2.
Proof.
  intros (Hij & (n & Hn & Hs) & Hno & Hend). injection Hs as ->.
  change (length doc_three) with 6 in *.
  assert (i = 0) as ->.
  { destruct i as [|[|[|[|[|[|[|i]]]]]]]; try reflexivity;
      vm_compute in Hn; discriminate. }
  split; [reflexivity|].
  destruct (Nat.le_gt_cases j 2) as [Hle|Hgt].
  - destruct j as [|[|[|j]]]; try lia.
    destruct Hend as [E|E]; [discriminate|]. exfalso. apply E. reflexivity.
  - assert (Hb : header_of (nth 2 doc_three "") = None) by (apply Hno; lia).
    vm_compute in Hb. discriminate.
Qed.

(** ** get_option *)

Lemma classify_option_inv (l o v : string) :
  classify l = OptionLine o v ->
  rx_option (strip l) = Some (o, v)
  /\ (String.length (strip l) =? 0)%nat = false
  /\ is_comment (strip l) = false.
Proof.
  unfold classify.
  destruct (String.length (strip l) =? 0)%nat; [discriminate|].
  destruct (is_comment (strip l)); [discriminate|].
  destruct (rx_option (strip l)) as [[o' v']|].
  - intros [= -> ->]. auto.
  - destruct (rx_section (strip l)); discriminate.
Qed.

Lemma get_option_loop_prefix (sec : pyval) (o : string) (rest : list string) :
  forall pre cur,
    (forall pre1 l1 post1 v1,
        pre = (pre1 ++ l1 :: post1)%list ->
        classify l1 = OptionLine o v1 ->
        section_after cur pre1 <> sec) ->
    get_option_loop sec (Some o) (pre ++ rest) cur
    = get_option_loop sec (Some o) rest (section_after cur pre).
Proof.
  induction pre as [|l pre IH]; intros cur Hpre; [reflexivity|].
  cbn [app section_after]. rewrite get_option_loop_step.
  assert (Htail : forall cur',
             cur' = match classify l with
                    | SectionLine n => Some n
                    | _ => cur
                    end ->
             forall pre1 l1 post1 v1,
               pre = (pre1 ++ l1 :: post1)%list ->
               classify l1 = OptionLine o v1 ->
               section_after cur' pre1 <> sec).
  { intros cur' -> pre1 l1 post1 v1 E Hc.
    apply (Hpre (l :: pre1) l1 post1 v1); [rewrite E; reflexivity|exact Hc]. }
  destruct (classify l) as [| |o1 v1|n|] eqn:Hc;
    try (apply IH; apply Htail; reflexivity).
  destruct (pyval_eqb cur sec && pyval_eqb (Some o1) (Some o)) eqn:Hm.
  - exfalso. apply andb_prop in Hm.
    destruct Hm as [Hs%pyval_eqb_eq Ho%pyval_eqb_eq].
    injection Ho as ->.
    apply (Hpre [] l pre v1 eq_refl Hc). exact Hs.
  - apply IH; apply Htail; reflexivity.
Qed.

(** C9, as the code has it.  When [l] is the first option line of the
    document that lies in the requested section and carries the requested
    key, [get_option] returns group 2 of the option pattern applied to the
    stripped line, that is, the value without the whitespace that ends the
    stored line, and the document is left as it is. *)
Theorem get_option_first_match (self : IniFile) (sec : pyval)
    (pre post : list string) (l o v : string) :
  lines self = (pre ++ l :: post)%list ->
  classify l = OptionLine o v ->
  section_after None pre = sec ->
  (forall pre1 l1 post1 v1,
      pre = (pre1 ++ l1 :: post1)%list ->
      classify l1 = OptionLine o v1 ->
      section_after None pre1 <> sec) ->
  get_option sec (Some o) self = (Some v, self)
  /\ rx_option (strip l) = Some (o, v).
Proof.
  intros Hl Hc Hs Hfirst. split.
  - unfold get_option. f_equal. rewrite Hl.
    rewrite get_option_loop_prefix by exact Hfirst.
    rewrite get_option_loop_step, Hc, Hs, !pyval_eqb_refl. reflexivity.
  - apply classify_option_inv. exact Hc.
Qed.

Lemma get_option_first_match_witness :
  get_option (Some "s") (Some "a") (mkIniFile "f" doc_spaces)
  = (Some "b", mkIniFile "f" doc_spaces)
  /\ rx_option (strip (ln "a = b  ")) = Some ("a", "b").
Proof.
  apply (get_option_first_match (mkIniFile "f" doc_spaces) (Some "s")
           [ln "[s]"] [] (ln "a = b  ") "a" "b").
  - reflexivity.
  - reflexivity.
  - reflexivity.
  - intros pre1 l1 post1 v1 E Hc.
    destruct pre1 as [|x [|y p]]; simpl in E; discriminate.
Defined.

(** ** set_option for a section that is absent *)

Lemma recorded_upto_skip (all : list string) (n last : nat) :
  recorded (nth n all "") = false ->
  recorded_upto all n last -> recorded_upto all (S n) last.
Proof.
  intros Hn [Hgap Hlast]. split.
  - intros j Hj. destruct (Nat.eq_dec j n) as [->|]; [exact Hn|].
    apply Hgap. lia.
  - destruct Hlast as [->|[Hlt Hrec]]; [auto|]. right. split; [lia|exact Hrec].
Qed.

Lemma recorded_upto_hit (all : list string) (n last : nat) :
  recorded (nth n all "") = true -> recorded_upto all (S n) n.
Proof.
  intros Hn. split.
  - intros j Hj. lia.
  - right. split; [lia|exact Hn].
Qed.

Lemma last_recorded_unique (doc : list string) (k k' : nat) :
  last_recorded doc k -> last_recorded doc k' -> k = k'.
Proof.
  intros [Hgap Hlast] [Hgap' Hlast'].
  destruct (Nat.lt_trichotomy k k') as [Hlt|[Heq|Hgt]]; [|exact Heq|].
  - destruct Hlast' as [->|[Hlen Hrec]]; [lia|].
    rewrite Hgap in Hrec by lia. discriminate.
  - destruct Hlast as [->|[Hlen Hrec]]; [lia|].
    rewrite Hgap' in Hrec by lia. discriminate.
Qed.

Lemma set_option_loop_absent (s : string) (opt val : pyval)
    (all : list string) :
  forall rest done cur last,
    all = (done ++ rest)%list ->
    cur <> Some s ->
    (forall l, In l rest -> classify l <> SectionLine s) ->
    recorded_upto all (length done) last ->
    exists cur' last',
      set_option_loop (Some s) opt val all rest (length done) cur last
      = inr (cur', last')
      /\ cur' <> Some s
      /\ recorded_upto all (length all) last'.
Proof.
  induction rest as [|l rest IH]; intros done cur last Hall Hcur Hrest Hinv.
  - exists cur, last. rewrite Hall, app_nil_r in *. auto.
  - rewrite set_option_loop_step.
    pose proof (IH (done ++ [l])%list) as IH'.
    rewrite length_snoc in IH'.
    assert (Hall' : all = ((done ++ [l]) ++ rest)%list)
      by (rewrite <- snoc_app; exact Hall).
    assert (Hrest' : forall l0, In l0 rest -> classify l0 <> SectionLine s)
      by (intros; apply Hrest; simpl; auto).
    assert (Hnth : nth (length done) all "" = l)
      by (rewrite Hall; apply nth_middle_done).
    assert (Hcs : pyval_eqb cur (Some s) = false)
      by (apply pyval_eqb_neq; exact Hcur).
    assert (Hl : classify l <> SectionLine s) by (apply Hrest; simpl; auto).
    assert (Hrec : forall b, recorded l = b -> recorded (nth (length done) all "") = b)
      by (intros b <-; rewrite Hnth; reflexivity).
    unfold recorded in Hrec.
    destruct (classify l) as [| |o v|n|] eqn:Hc; rewrite ?Hcs; cbn [andb].
    + apply IH'; auto using recorded_upto_skip.
    + apply IH'; eauto using recorded_upto_hit.
    + apply IH'; eauto using recorded_upto_hit.
    + apply IH'; eauto using recorded_upto_hit. congruence.
    + apply IH'; auto using recorded_upto_skip.
Qed.

Lemma set_option_new_section_lines (self : IniFile) (s : string)
    (opt val : pyval) (k : nat) :
  (forall l, In l (lines self) -> classify l <> SectionLine s) ->
  last_recorded (lines self) k ->
  let n := length (lines self) in
  let close := ((1 <? n) && (n - 1 - k <? 2))%nat in
  lines (set_option (Some s) opt val self)
  = (lines self ++ (if close then [nl] else [])
       ++ chars (section_line (Some s)) ++ chars (option_line opt val))%list.
Proof.
  intros Habs Hk n close. unfold set_option.
  destruct (set_option_loop_absent s opt val (lines self) (lines self) []
              None 0 eq_refl) as (cur & last & Hloop & Hcur & Hlast).
  - discriminate.
  - exact Habs.
  - split; [simpl; intros; lia|auto].
  - cbn [length] in Hloop. rewrite Hloop.
    apply pyval_eqb_neq in Hcur. rewrite Hcur. cbn [negb lines with_lines].
    assert (last = k) as -> by (eapply last_recorded_unique; eauto).
    rewrite <- !app_assoc. do 2 f_equal.
    fold n. subst close.
    assert (Hkn : k = 0 \/ k < n) by (destruct Hk as [_ [?|[? _]]]; auto).
    destruct (Nat.ltb_spec 0 (pred n)); destruct (Nat.ltb_spec 1 n);
      cbn [andb]; try lia; try reflexivity.
    destruct (Z.ltb_spec (Z.of_nat (pred n) - Z.of_nat k) 2);
      destruct (Nat.ltb_spec (n - 1 - k) 2);
      try reflexivity; lia.
Qed.

(** The new-section path on every document.  When no line of the
    document is a header of section [s], [set_option] appends the header
    of [s] and the canonical option line to the serialized document,
    after a single line feed exactly when the document has at least two
    lines and its last line is at most one line after the last recorded
    line (comment, option or section header; line [0] when there is
    none): the guard counts from the index of the last line, which is one
    less than the number of lines. *)
Lemma set_option_new_section (self : IniFile) (s : string)
    (opt val : pyval) (k : nat) :
  (forall l, In l (lines self) -> classify l <> SectionLine s) ->
  last_recorded (lines self) k ->
  let n := length (lines self) in
  let close := ((1 <? n) && (n - 1 - k <? 2))%nat in
  serialize (lines (set_option (Some s) opt val self))
  = serialize (lines self) ++ (if close then nl else "")
    ++ section_line (Some s) ++ option_line opt val.
Proof.
  intros Habs Hk n close.
  rewrite (set_option_new_section_lines self s opt val k Habs Hk).
  fold n. fold close.
  rewrite !serialize_app, !serialize_chars.
  destruct close; reflexivity.
Qed.

Lemma set_option_new_section_witness :
  (forall l, In l doc_trailing_blank -> classify l <> SectionLine "b")
  /\ last_recorded doc_trailing_blank 1
  /\ serialize
       (lines (set_option (Some "b") (Some "o") (Some "v")
                 (mkIniFile "f" doc_trailing_blank)))
     = serialize doc_trailing_blank ++ nl ++ ln "[b]" ++ ln "o = v".
Proof.
  assert (Habs : forall l, In l (lines (mkIniFile "f" doc_trailing_blank)) ->
                   classify l <> SectionLine "b").
  { intros l [<-|[<-|[<-|[]]]]; vm_compute; discriminate. }
  assert (Hk : last_recorded (lines (mkIniFile "f" doc_trailing_blank)) 1).
  { split.
    - intros j Hj. simpl in Hj.
      destruct j as [|[|[|j]]]; try lia. reflexivity.
    - right. split; [simpl; lia|reflexivity]. }
  split; [exact Habs|]. split; [exact Hk|].
  exact (set_option_new_section (mkIniFile "f" doc_trailing_blank)
           "b" (Some "o") (Some "v") 1 Habs Hk).
Defined.

(** ** The canonical option line is read back as an option line *)

Lemma span_spec (p : ascii -> bool) (s : string) :
  forall a b, span p s = (a, b) -> s = a ++ b /\ all_chars p a = true.
Proof.
  induction s as [|c s IH]; intros a b H; cbn [span] in H.
  - injection H as <- <-. auto.
  - destruct (p c) eqn:Hc.
    + destruct (span p s) as [a' b'] eqn:Hs. injection H as <- <-.
      destruct (IH a' b' eq_refl) as [-> Ha]. cbn [all_chars append].
      rewrite Hc, Ha. auto.
    + injection H as <- <-. auto.
Qed.

Lemma span_prefix (p : ascii -> bool) (a b : string) :
  all_chars p a = true ->
  match b with "" => True | String c _ => p c = false end ->
  span p (a ++ b) = (a, b).
Proof.
  intros Ha Hb. induction a as [|c a IH]; cbn [append span].
  - destruct b as [|c b]; [reflexivity|]. cbn [span]. rewrite Hb. reflexivity.
  - cbn [all_chars] in Ha. apply andb_prop in Ha. destruct Ha as [Hc Ha].
    rewrite Hc, (IH Ha). reflexivity.
Qed.

Lemma rstrip_cons_nonspace (c : ascii) (s : string) :
  is_space c = false -> rstrip (String c s) = String c (rstrip s).
Proof. intros Hc. cbn [rstrip]. rewrite Hc. destruct (rstrip s); reflexivity. Qed.

Lemma opt_char_nonspace (c : ascii) : opt_char c = true -> is_space c = false.
Proof.
  unfold opt_char. intros H. apply negb_true_iff, orb_false_iff in H. tauto.
Qed.

Lemma rstrip_opt_prefix (a b : string) :
  all_chars opt_char a = true -> rstrip (a ++ b) = a ++ rstrip b.
Proof.
  intros Ha. induction a as [|c a IH]; [reflexivity|].
  cbn [all_chars] in Ha. apply andb_prop in Ha. destruct Ha as [Hc Ha].
  cbn [append]. rewrite rstrip_cons_nonspace by (apply opt_char_nonspace; exact Hc).
  rewrite (IH Ha). reflexivity.
Qed.

Lemma is_comment_head (c : ascii) (s t : string) :
  is_comment (String c s) = is_comment (String c t).
Proof.
  unfold is_comment, startswith. cbn [prefix].
  destruct (ascii_dec "#" c), (ascii_dec ";" c); destruct s, t; reflexivity.
Qed.

Lemma rx_option_inv (line o v : string) :
  rx_option line = Some (o, v) ->
  exists c o' r1, o = String c o' /\ span opt_char line = (String c o', r1).
Proof.
  unfold rx_option. destruct (span opt_char line) as [o' r1].
  destruct o' as [|c o']; [discriminate|].
  destruct (lstrip r1) as [|e r2]; [discriminate|].
  intros H. exists c, o', r1. split; [|reflexivity].
  destruct e as [[] [] [] [] [] [] [] []]; try discriminate; congruence.
Qed.

Lemma option_line_classify (l o v0 : string) (val : pyval) :
  classify l = OptionLine o v0 ->
  exists v1, classify (option_line (Some o) val) = OptionLine o v1.
Proof.
  intros Hc. apply classify_option_inv in Hc. destruct Hc as (Hrx & _ & Hcom).
  apply rx_option_inv in Hrx. destruct Hrx as (c & o' & r1 & -> & Hsp).
  apply span_spec in Hsp. destruct Hsp as [Hl Ho].
  assert (Hstrip :
    strip (option_line (Some (String c o')) val)
    = String c o' ++ String " " (String "=" (rstrip (String " " (str_of val ++ nl))))).
  { unfold strip, option_line. cbn [str_of append lstrip].
    pose proof Ho as Ho'. cbn [all_chars] in Ho'.
    apply andb_prop in Ho'. destruct Ho' as [Hc _].
    rewrite (opt_char_nonspace c Hc).
    change (String c (o' ++ String " " (String "=" (String " " (str_of val ++ nl)))))
      with (String c o' ++ String " " (String "=" (String " " (str_of val ++ nl)))).
    rewrite (rstrip_opt_prefix _ _ Ho). f_equal.
    set (tail := String " " (str_of val ++ nl)).
    cbn [rstrip]. destruct (rstrip tail); reflexivity. }
  unfold classify. rewrite Hstrip. cbn [append String.length Nat.eqb].
  rewrite Hl in Hcom. cbn [append] in Hcom.
  rewrite (is_comment_head c _ (o' ++ r1)), Hcom.
  unfold rx_option.
  change (String c (o' ++ ?x)) with (String c o' ++ x).
  rewrite (span_prefix opt_char (String c o') _ Ho) by reflexivity.
  cbn [lstrip is_space]. eexists. reflexivity.
Qed.

(** ** set_option on an option that is present *)

Lemma get_option_loop_unreachable (sec opt : pyval) :
  forall rest cur,
    cur <> sec ->
    (forall l n, In l rest -> classify l = SectionLine n -> Some n <> sec) ->
    get_option_loop sec opt rest cur = None.
Proof.
  induction rest as [|l rest IH]; intros cur Hcur Hrest; [reflexivity|].
  rewrite get_option_loop_step.
  assert (Hrest' : forall l0 n, In l0 rest -> classify l0 = SectionLine n ->
                     Some n <> sec)
    by (intros; eapply Hrest; simpl; eauto).
  apply pyval_eqb_neq in Hcur as Hcs.
  destruct (classify l) as [| |o v|n|] eqn:Hc; rewrite ?Hcs; cbn [andb]; auto.
  apply IH; [|exact Hrest']. apply (Hrest l n); simpl; auto.
Qed.

Lemma set_option_loop_app (sec opt val : pyval) (all R : list string) :
  forall pre n cur last cur' last',
    set_option_loop sec opt val all pre n cur last = inr (cur', last') ->
    set_option_loop sec opt val all (pre ++ R) n cur last
    = set_option_loop sec opt val all R (n + length pre) cur' last'.
Proof.
  induction pre as [|l pre IH]; intros n cur last cur' last' H.
  - cbn [set_option_loop] in H. injection H as <- <-.
    cbn [app length]. rewrite Nat.add_0_r. reflexivity.
  - cbn [app length]. rewrite set_option_loop_step in *.
    replace (n + S (length pre)) with (S n + length pre) by lia.
    destruct (classify l) as [| |o v|n0|]; auto.
    + destruct (pyval_eqb cur sec && pyval_eqb (Some o) opt);
        [discriminate|auto].
    + destruct (pyval_eqb cur sec); [discriminate|auto].
Qed.

Lemma list_set_middle {A} (x : A) (pre : list A) (l : A) (post : list A) :
  list_set (length pre) x (pre ++ l :: post) = (pre ++ x :: post)%list.
Proof. induction pre as [|h pre IH]; simpl; congruence. Qed.

Lemma section_names_app (xs ys : list string) :
  section_names (xs ++ ys) = (section_names xs ++ section_names ys)%list.
Proof. unfold section_names. apply flat_map_app. Qed.

Lemma in_section_names (n : string) (doc : list string) :
  In n (section_names doc) <->
  exists l, In l doc /\ classify l = SectionLine n.
Proof.
  unfold section_names. rewrite in_flat_map. split.
  - intros (l & Hl & Hn). exists l. split; [assumption|].
    destruct (classify l); simpl in Hn; intuition congruence.
  - intros (l & Hl & Hn). exists l. split; [assumption|].
    rewrite Hn. simpl. auto.
Qed.

Lemma NoDup_app_disjoint {A} (xs ys : list A) :
  NoDup (xs ++ ys) -> forall x, In x xs -> ~ In x ys.
Proof.
  induction xs as [|h xs IH]; intros Hnd x Hx Hy; [contradiction|].
  cbn [app] in Hnd. inversion Hnd as [|? ? Hh Hnd']; subst.
  destruct Hx as [->|Hx].
  - apply Hh. apply in_or_app. auto.
  - exact (IH Hnd' x Hx Hy).
Qed.

(** Where [get_option] finds the option, [set_option] arrives in the same
    section without having returned, provided no section name is used
    twice. *)
Lemma get_option_loop_found (sec val : pyval) (o v : string) :
  forall rest done cur,
    NoDup (section_names (done ++ rest)) ->
    (forall s, cur = Some s -> In s (section_names done)) ->
    get_option_loop sec (Some o) rest cur = Some v ->
    exists pre l post,
      rest = (pre ++ l :: post)%list
      /\ classify l = OptionLine o v
      /\ forall all n last, exists last',
           set_option_loop sec (Some o) val all pre n cur last
           = inr (sec, last').
Proof.
  induction rest as [|l rest IH]; intros done cur Hnd Hcur Hget; [discriminate|].
  rewrite get_option_loop_step in Hget.
  assert (Hnd' : NoDup (section_names ((done ++ [l]) ++ rest)))
    by (rewrite <- snoc_app; exact Hnd).
  assert (Hstep : forall cur',
      (forall s, cur' = Some s -> In s (section_names (done ++ [l]))) ->
      get_option_loop sec (Some o) rest cur' = Some v ->
      (forall all n last,
          set_option_loop sec (Some o) val all (l :: rest) n cur last
          = set_option_loop sec (Some o) val all rest (S n) cur' last
          \/ set_option_loop sec (Some o) val all (l :: rest) n cur last
             = set_option_loop sec (Some o) val all rest (S n) cur' n) ->
      (forall all pre n last,
          set_option_loop sec (Some o) val all (l :: pre) n cur last
          = set_option_loop sec (Some o) val all pre (S n) cur' last
          \/ set_option_loop sec (Some o) val all (l :: pre) n cur last
             = set_option_loop sec (Some o) val all pre (S n) cur' n) ->
      exists pre l0 post,
        (l :: rest)%list = (pre ++ l0 :: post)%list
        /\ classify l0 = OptionLine o v
        /\ forall all n last, exists last',
             set_option_loop sec (Some o) val all pre n cur last
             = inr (sec, last')).
  { intros cur' Hcur' Hget' _ Hset.
    destruct (IH (done ++ [l])%list cur' Hnd' Hcur' Hget')
      as (pre & l0 & post & -> & Hc0 & Hpre).
    exists (l :: pre), l0, post. split; [reflexivity|]. split; [exact Hc0|].
    intros all n last. destruct (Hset all pre n last) as [-> | ->]; apply Hpre. }
  assert (Hkeep : forall s, cur = Some s -> In s (section_names (done ++ [l]))).
  { intros s Hs. rewrite section_names_app, in_app_iff. left. auto. }
  destruct (classify l) as [| |o1 v1|n0|] eqn:Hc.
  - apply (Hstep cur Hkeep Hget);
      intros; rewrite set_option_loop_step, Hc; auto.
  - apply (Hstep cur Hkeep Hget);
      intros; rewrite set_option_loop_step, Hc; auto.
  - destruct (pyval_eqb cur sec && pyval_eqb (Some o1) (Some o)) eqn:Hm.
    + injection Hget as ->. apply andb_prop in Hm.
      destruct Hm as [Hs%pyval_eqb_eq Ho%pyval_eqb_eq]. injection Ho as ->.
      exists [], l, rest. split; [reflexivity|]. split; [exact Hc|].
      intros all n last. exists last. rewrite Hs. reflexivity.
    + apply (Hstep cur Hkeep Hget);
        intros; rewrite set_option_loop_step, Hc, Hm; auto.
  - destruct (pyval_eqb cur sec) eqn:Hs.
    + exfalso. apply pyval_eqb_eq in Hs. subst sec.
      assert (Hdis : forall s, cur = Some s ->
                       ~ In s (section_names (l :: rest))).
      { intros s Hs. rewrite section_names_app in Hnd.
        apply (NoDup_app_disjoint _ _ Hnd). auto. }
      assert (Hnames : section_names (l :: rest) = n0 :: section_names rest).
      { unfold section_names. simpl. rewrite Hc. reflexivity. }
      rewrite Hnames in Hdis.
      rewrite get_option_loop_unreachable in Hget; [discriminate| |].
      * intros E. apply (Hdis n0); simpl; auto.
      * intros l1 n1 Hin Hc1 E. apply (Hdis n1); [auto|].
        simpl. right. apply in_section_names. eauto.
    + apply (Hstep (Some n0)).
      * intros s [= <-]. rewrite section_names_app, in_app_iff. right.
        unfold section_names. simpl. rewrite Hc. simpl. auto.
      * exact Hget.
      * intros; rewrite set_option_loop_step, Hc, Hs; auto.
      * intros; rewrite set_option_loop_step, Hc, Hs; auto.
  - apply (Hstep cur Hkeep Hget);
      intros; rewrite set_option_loop_step, Hc; auto.
Qed.

Lemma set_option_replaces (self : IniFile) (sec val : pyval)
    (pre post : list string) (l o v : string) :
  lines self = (pre ++ l :: post)%list ->
  classify l = OptionLine o v ->
  (forall all n last, exists last',
      set_option_loop sec (Some o) val all pre n None last = inr (sec, last')) ->
  set_option sec (Some o) val self
  = with_lines self (pre ++ option_line (Some o) val :: post).
Proof.
  intros Hl Hc Hpre. unfold set_option. rewrite Hl.
  destruct (Hpre (pre ++ l :: post)%list 0 0) as [last' Hscan].
  rewrite (set_option_loop_app _ _ _ _ _ _ _ _ _ _ _ Hscan).
  rewrite set_option_loop_step, Hc, !pyval_eqb_refl. cbn [andb Nat.add].
  rewrite list_set_middle. reflexivity.
Qed.

(** In a document that uses no section name twice, an option that
    [get_option] finds is rewritten in place by [set_option], and a second
    [set_option] with the same arguments rewrites the same line to the same
    text: the document after the second call is the document after the
    first. *)
Lemma set_option_twice_distinct (self : IniFile) (sec val : pyval)
    (o v : string) :
  NoDup (section_names (lines self)) ->
  fst (get_option sec (Some o) self) = Some v ->
  set_option sec (Some o) val (set_option sec (Some o) val self)
  = set_option sec (Some o) val self.
Proof.
  intros Hnd Hget. cbn [get_option fst] in Hget.
  destruct (get_option_loop_found sec val o v (lines self) [] None Hnd)
    as (pre & l & post & Hl & Hc & Hpre); [discriminate|exact Hget|].
  rewrite (set_option_replaces self sec val pre post l o v Hl Hc Hpre).
  destruct (option_line_classify l o v val Hc) as [v1 Hc1].
  rewrite (set_option_replaces
             (with_lines self (pre ++ option_line (Some o) val :: post))
             sec val pre post (option_line (Some o) val) o v1
             eq_refl Hc1 Hpre).
  reflexivity.
Qed.

(** ** set_option in a section whose header is the first line *)

Lemma set_option_loop_skip_unrecorded (sec opt val : pyval)
    (all R : list string) :
  forall body n cur last,
    (forall l, In l body -> recorded l = false) ->
    set_option_loop sec opt val all (body ++ R) n cur last
    = set_option_loop sec opt val all R (n + length body) cur last.
Proof.
  induction body as [|l body IH]; intros n cur last Hbody.
  - cbn [app length]. rewrite Nat.add_0_r. reflexivity.
  - cbn [app length]. rewrite set_option_loop_step.
    replace (n + S (length body)) with (S n + length body) by lia.
    pose proof (Hbody l (or_introl eq_refl)) as Hl. unfold recorded in Hl.
    destruct (classify l); try discriminate;
      apply IH; intros; apply Hbody; simpl; auto.
Qed.

(** Every document in which the header of the target section is the first
    line, and no comment or option line lies between it and the next
    header, shows the defect of C1: the option text is spliced at index 0,
    in front of the header of the section it belongs to. *)
Lemma set_option_header_on_first_line (self : IniFile) (s n' : string)
    (opt val : pyval) (h h' : string) (body post : list string) :
  lines self = (h :: body ++ h' :: post)%list ->
  classify h = SectionLine s ->
  (forall l, In l body -> recorded l = false) ->
  classify h' = SectionLine n' ->
  lines (set_option (Some s) opt val self)
  = (chars (option_line opt val) ++ lines self)%list.
Proof.
  intros Hl Hh Hbody Hh'. unfold set_option. rewrite Hl.
  rewrite set_option_loop_step, Hh. cbn [pyval_eqb].
  rewrite set_option_loop_skip_unrecorded by exact Hbody.
  rewrite set_option_loop_step, Hh', pyval_eqb_refl.
  reflexivity.
Qed.

(** * Further properties of the methods *)

(** ** get_option: what a result means *)

Lemma get_option_loop_split (sec opt : pyval) :
  forall rest cur v,
    get_option_loop sec opt rest cur = Some v ->
    exists pre l post o,
      rest = (pre ++ l :: post)%list
      /\ opt = Some o
      /\ classify l = OptionLine o v
      /\ section_after cur pre = sec
      /\ (forall pre1 l1 post1 v1,
             pre = (pre1 ++ l1 :: post1)%list ->
             classify l1 = OptionLine o v1 ->
             section_after cur pre1 <> sec).
Proof.
  induction rest as [|l rest IH]; intros cur v Hget; [discriminate|].
  rewrite get_option_loop_step in Hget.
  assert (Hgo : forall cur',
      cur' = match classify l with SectionLine n => Some n | _ => cur end ->
      (forall o v1, opt = Some o -> classify l = OptionLine o v1 -> cur <> sec) ->
      get_option_loop sec opt rest cur' = Some v ->
      exists pre l0 post o,
        (l :: rest)%list = (pre ++ l0 :: post)%list
        /\ opt = Some o
        /\ classify l0 = OptionLine o v
        /\ section_after cur pre = sec
        /\ (forall pre1 l1 post1 v1,
               pre = (pre1 ++ l1 :: post1)%list ->
               classify l1 = OptionLine o v1 ->
               section_after cur pre1 <> sec)).
  { intros cur' Hcur' Hhere Hget'.
    destruct (IH cur' v Hget') as (pre & l0 & post & o & -> & Ho & Hc0 & Hs & Hf).
    exists (l :: pre), l0, post, o. repeat split; auto.
    - cbn [section_after]. rewrite <- Hcur'. exact Hs.
    - intros pre1 l1 post1 v1 E Hc1.
      destruct pre1 as [|x pre1]; cbn [app] in E; injection E as <- E.
      + cbn [section_after]. eapply Hhere; eauto.
      + cbn [section_after]. rewrite <- Hcur'. eapply Hf; eauto. }
  destruct (classify l) as [| |o1 v1|n|] eqn:Hc;
    try (apply (Hgo _ eq_refl); [intros; discriminate|exact Hget]).
  destruct (pyval_eqb cur sec && pyval_eqb (Some o1) opt) eqn:Hm.
  - injection Hget as ->. apply andb_prop in Hm.
    destruct Hm as [Hs%pyval_eqb_eq Ho%pyval_eqb_eq].
    exists [], l, rest, o1. repeat split; auto.
    intros pre1 l1 post1 v1 E. destruct pre1; discriminate.
  - apply (Hgo _ eq_refl); [|exact Hget].
    intros o v2 -> [= -> ->] E. subst cur.
    rewrite !pyval_eqb_refl in Hm. discriminate.
Qed.

(** X1. A value returned by [get_option] is group 2 of the option pattern
    on the first option line that lies in the requested section and
    carries the requested key: such a line exists whenever a value is
    returned, and the requested option is then a string. *)
Theorem get_option_sound (self : IniFile) (sec opt : pyval) (v : string) :
  fst (get_option sec opt self) = Some v ->
  exists pre l post o,
    lines self = (pre ++ l :: post)%list
    /\ opt = Some o
    /\ classify l = OptionLine o v
    /\ rx_option (strip l) = Some (o, v)
    /\ section_after None pre = sec
    /\ (forall pre1 l1 post1 v1,
           pre = (pre1 ++ l1 :: post1)%list ->
           classify l1 = OptionLine o v1 ->
           section_after None pre1 <> sec).
Proof.
  intros Hget. cbn [get_option fst] in Hget.
  destruct (get_option_loop_split sec opt _ _ _ Hget)
    as (pre & l & post & o & Hl & Ho & Hc & Hs & Hf).
  exists pre, l, post, o. repeat split; auto.
  apply classify_option_inv. exact Hc.
Qed.

Lemma get_option_sound_witness :
  fst (get_option (Some "s") (Some "k") (mkIniFile "f" doc_twice)) = Some "1"
  /\ exists pre l post o,
       doc_twice = (pre ++ l :: post)%list
       /\ Some "k" = Some o
       /\ classify l = OptionLine o "1"
       /\ rx_option (strip l) = Some (o, "1")
       /\ section_after None pre = Some "s"
       /\ (forall pre1 l1 post1 v1,
              pre = (pre1 ++ l1 :: post1)%list ->
              classify l1 = OptionLine o v1 ->
              section_after None pre1 <> Some "s").
Proof.
  split; [reflexivity|].
  apply (get_option_sound (mkIniFile "f" doc_twice) (Some "s") (Some "k") "1").
  reflexivity.
Defined.

Lemma get_option_loop_no_key (sec : pyval) (o : string) :
  forall rest cur,
    (forall l v, In l rest -> classify l <> OptionLine o v) ->
    get_option_loop sec (Some o) rest cur = None.
Proof.
  induction rest as [|l rest IH]; intros cur Hrest; [reflexivity|].
  rewrite get_option_loop_step.
  assert (Hrest' : forall l0 v, In l0 rest -> classify l0 <> OptionLine o v)
    by (intros; apply Hrest; simpl; auto).
  destruct (classify l) as [| |o1 v1|n|] eqn:Hc; auto.
  destruct (pyval_eqb cur sec && pyval_eqb (Some o1) (Some o)) eqn:Hm; auto.
  apply andb_prop in Hm. destruct Hm as [_ Ho%pyval_eqb_eq]. injection Ho as ->.
  exfalso. apply (Hrest l v1); simpl; auto.
Qed.

(** X2. [get_option] returns [None], and leaves the document as it is,
    when the document has no header of the requested section, and also
    when it has no option line with the requested key. *)
Theorem get_option_missing (self : IniFile) (s o : string) (sec opt : pyval) :
  ((forall l, In l (lines self) -> classify l <> SectionLine s) ->
   get_option (Some s) opt self = (None, self))
  /\ ((forall l v, In l (lines self) -> classify l <> OptionLine o v) ->
      get_option sec (Some o) self = (None, self)).
Proof.
  split; intros H; unfold get_option; f_equal.
  - apply get_option_loop_unreachable; [discriminate|].
    intros l n Hin Hc [= ->]. exact (H l Hin Hc).
  - apply get_option_loop_no_key. exact H.
Qed.

Lemma get_option_missing_witness :
  get_option (Some "z") (Some "k") (mkIniFile "f" doc_twice)
  = (None, mkIniFile "f" doc_twice)
  /\ get_option (Some "s") (Some "q") (mkIniFile "f" doc_twice)
     = (None, mkIniFile "f" doc_twice).
Proof.
  destruct (get_option_missing (mkIniFile "f" doc_twice) "z" "q"
              (Some "s") (Some "k")) as [Hsec Hkey].
  split.
  - apply Hsec. intros l Hin.
    repeat (destruct Hin as [<-|Hin]; [vm_compute; discriminate|]).
    destruct Hin.
  - apply Hkey. intros l v Hin.
    repeat (destruct Hin as [<-|Hin]; [vm_compute; discriminate|]).
    destruct Hin.
Defined.

(** ** del_option *)

Lemma del_option_loop_prefix (sec : pyval) (o : string)
    (all rest : list string) :
  forall pre n cur,
    (forall pre1 l1 post1 v1,
        pre = (pre1 ++ l1 :: post1)%list ->
        classify l1 = OptionLine o v1 ->
        section_after cur pre1 <> sec) ->
    del_option_loop sec (Some o) all (pre ++ rest) n cur
    = del_option_loop sec (Some o) all rest (n + length pre)
        (section_after cur pre).
Proof.
  induction pre as [|l pre IH]; intros n cur Hpre.
  - cbn [app length section_after]. rewrite Nat.add_0_r. reflexivity.
  - cbn [app length section_after]. rewrite del_option_loop_step.
    replace (n + S (length pre)) with (S n + length pre) by lia.
    assert (Htail : forall cur',
               cur' = match classify l with
                      | SectionLine n => Some n
                      | _ => cur
                      end ->
               forall pre1 l1 post1 v1,
                 pre = (pre1 ++ l1 :: post1)%list ->
                 classify l1 = OptionLine o v1 ->
                 section_after cur' pre1 <> sec).
    { intros cur' -> pre1 l1 post1 v1 E Hc.
      apply (Hpre (l :: pre1) l1 post1 v1); [rewrite E; reflexivity|exact Hc]. }
    destruct (classify l) as [| |o1 v1|n0|] eqn:Hc;
      try (apply IH; apply Htail; reflexivity).
    destruct (pyval_eqb cur sec && pyval_eqb (Some o1) (Some o)) eqn:Hm.
    + exfalso. apply andb_prop in Hm.
      destruct Hm as [Hs%pyval_eqb_eq Ho%pyval_eqb_eq].
      injection Ho as ->.
      apply (Hpre [] l pre v1 eq_refl Hc). exact Hs.
    + apply IH; apply Htail; reflexivity.
Qed.

Lemma del_index_middle {A} (pre : list A) (l : A) (post : list A) :
  del_index (length pre) (pre ++ l :: post) = (pre ++ post)%list.
Proof.
  unfold del_index. induction pre as [|h pre IH]; [reflexivity|].
  change (h :: firstn (length pre) (pre ++ l :: post)
            ++ skipn (S (length pre)) (pre ++ l :: post)
          = h :: pre ++ post)%list.
  f_equal. exact IH.
Qed.

(** X3. [del_option] removes the first option line that lies in the
    requested section and carries the requested key, and only that line:
    later lines with the same key stay. *)
Theorem del_option_first_match (self : IniFile) (sec : pyval)
    (pre post : list string) (l o v : string) :
  lines self = (pre ++ l :: post)%list ->
  classify l = OptionLine o v ->
  section_after None pre = sec ->
  (forall pre1 l1 post1 v1,
      pre = (pre1 ++ l1 :: post1)%list ->
      classify l1 = OptionLine o v1 ->
      section_after None pre1 <> sec) ->
  del_option sec (Some o) self = (true, with_lines self (pre ++ post)).
Proof.
  intros Hl Hc Hs Hfirst. unfold del_option. rewrite Hl.
  rewrite del_option_loop_prefix by exact Hfirst.
  rewrite del_option_loop_step, Hc, Hs, !pyval_eqb_refl. cbn [andb Nat.add].
  rewrite del_index_middle. reflexivity.
Qed.

Lemma del_option_first_match_witness :
  del_option (Some "s") (Some "k") (mkIniFile "f" doc_twice)
  = (true,
     mkIniFile "f" [ln "# c"; ln "[s]"; ln "k = 2"; ln "[t]"; ln "k = 3"]).
Proof.
  apply (del_option_first_match (mkIniFile "f" doc_twice) (Some "s")
           [ln "# c"; ln "[s]"] [ln "k = 2"; ln "[t]"; ln "k = 3"]
           (ln "k = 1") "k" "1").
  - reflexivity.
  - reflexivity.
  - reflexivity.
  - intros pre1 l1 post1 v1 E Hc.
    destruct pre1 as [|x [|y [|z p]]]; simpl in E; try discriminate;
      injection E as <- <-; vm_compute in Hc; discriminate.
Defined.

Lemma del_option_loop_get (sec opt : pyval) (all : list string) :
  forall rest n cur,
    match get_option_loop sec opt rest cur with
    | Some _ => del_option_loop sec opt all rest n cur <> None
    | None => del_option_loop sec opt all rest n cur = None
    end.
Proof.
  induction rest as [|l rest IH]; intros n cur; [reflexivity|].
  rewrite get_option_loop_step, del_option_loop_step.
  destruct (classify l) as [| |o v|n0|]; try apply IH.
  destruct (pyval_eqb cur sec && pyval_eqb (Some o) opt); [discriminate|].
  apply IH.
Qed.

(** X4. [del_option] reports a change exactly when [get_option] finds the
    option; when [get_option] finds nothing, [del_option] returns false and
    leaves the document as it is. *)
Theorem del_option_iff_get (self : IniFile) (sec opt : pyval) :
  fst (del_option sec opt self)
  = match fst (get_option sec opt self) with
    | Some _ => true
    | None => false
    end
  /\ (fst (get_option sec opt self) = None ->
      del_option sec opt self = (false, self)).
Proof.
  pose proof (del_option_loop_get sec opt (lines self) (lines self) 0 None)
    as H.
  unfold del_option, get_option. cbn [fst].
  destruct (get_option_loop sec opt (lines self) None);
    destruct (del_option_loop sec opt (lines self) (lines self) 0 None);
    try congruence; split; try reflexivity; discriminate.
Qed.

(** ** del_section: when it fires and what it leaves *)

Lemma header_names_cons (l : string) (doc : list string) :
  header_names (l :: doc)
  = (match header_of l with Some n => [n] | None => [] end
       ++ header_names doc)%list.
Proof. reflexivity. Qed.

Lemma del_section_loop_fires (s : string) (all : list string) :
  forall rest n start,
    fst (del_section_loop (Some s) all rest n start) = true
    <-> (start <> None \/ In s (header_names rest)).
Proof.
  induction rest as [|l rest IH]; intros n start.
  - cbn [del_section_loop header_names flat_map].
    destruct start; cbn [fst]; split; intros H.
    + left. discriminate.
    + reflexivity.
    + discriminate.
    + destruct H as [H|[]]. congruence.
  - rewrite del_section_loop_step, header_names_cons.
    destruct (header_of l) as [n0|] eqn:Hh.
    + destruct (pyval_eqb (Some n0) (Some s)) eqn:He.
      * apply pyval_eqb_eq in He. injection He as ->.
        rewrite IH. split; intros _; [right; simpl; auto|left; discriminate].
      * apply pyval_eqb_neq in He.
        destruct start as [st|].
        -- cbn [fst]. split; intros _; [left; discriminate|reflexivity].
        -- rewrite IH. cbn [app In].
           split; (intros [H|H]; [left; exact H|right]); [auto|].
           destruct H as [->|H]; [congruence|exact H].
    + rewrite IH. reflexivity.
Qed.

(** X5. [del_section] reports a change exactly when some line of the
    document is a header of the section, whether or not section names
    repeat. *)
Theorem del_section_iff_header (self : IniFile) (s : string) :
  fst (del_section (Some s) self) = true
  <-> In s (header_names (lines self)).
Proof.
  unfold del_section.
  pose proof (del_section_loop_fires s (lines self) (lines self) 0 None) as H.
  destruct (del_section_loop (Some s) (lines self) (lines self) 0 None)
    as [changed ls].
  cbn [fst] in *. rewrite H. split; [intros [E|E]; [congruence|exact E]|auto].
Qed.

Lemma skipn_nth_cons {A} (d : A) (l : list A) :
  forall i, i < length l -> skipn i l = nth i l d :: skipn (S i) l.
Proof.
  induction l as [|h t IH]; intros i Hi; simpl in Hi; [lia|].
  destruct i as [|i]; [reflexivity|].
  cbn [skipn nth]. apply IH. lia.
Qed.

Lemma cut_block {A} (d : A) (l : list A) (i j : nat) :
  i < j <= length l ->
  l = (firstn i l
         ++ nth i l d :: firstn (j - S i) (skipn (S i) l) ++ skipn j l)%list.
Proof.
  intros Hij.
  rewrite <- (firstn_skipn i l) at 1. f_equal.
  rewrite (skipn_nth_cons d) by lia. f_equal.
  rewrite <- (firstn_skipn (j - S i) (skipn (S i) l)) at 1. f_equal.
  rewrite skipn_skipn. f_equal. lia.
Qed.

Lemma classify_section_header (l n : string) :
  classify l = SectionLine n -> header_of l = Some n.
Proof.
  unfold classify, header_of.
  destruct (String.length (strip l) =? 0)%nat; [discriminate|].
  destruct (is_comment (strip l)); [discriminate|].
  destruct (rx_option (strip l)) as [[o v]|]; [discriminate|].
  destruct (rx_section (strip l)); [congruence|discriminate].
Qed.

Lemma del_section_absent (self : IniFile) (s : string) :
  ~ In s (header_names (lines self)) ->
  del_section (Some s) self = (false, self).
Proof.
  intros Hnot. unfold del_section.
  rewrite <- (app_nil_r (lines self)) at 2.
  rewrite del_section_loop_skip_other.
  - simpl. rewrite with_lines_same. reflexivity.
  - intros l n Hin Hn E. injection E as ->. apply Hnot.
    apply in_header_names. eauto.
Qed.

(** X6. In a document whose section headers have pairwise distinct names,
    after [del_section] no header of the section is left: a second
    [del_section] returns false and changes nothing, and [get_option]
    finds no option of that section. *)
Theorem del_section_removes (self : IniFile) (s : string) (opt : pyval) :
  NoDup (header_names (lines self)) ->
  let self' := snd (del_section (Some s) self) in
  ~ In s (header_names (lines self'))
  /\ del_section (Some s) self' = (false, self')
  /\ get_option (Some s) opt self' = (None, self').
Proof.
  intros Hnd self'.
  assert (Hgone : ~ In s (header_names (lines self'))).
  { subst self'. unfold del_section.
    destruct (del_section_loop (Some s) (lines self) (lines self) 0 None)
      as [[|] r] eqn:Hloop; cbn [snd lines with_lines].
    - destruct (del_section_loop_returns (Some s) (lines self) (lines self)
                  [] None r eq_refl) as (i & j & Hij & (n & Hh & Hn) & ->);
        [discriminate|exact Hloop|].
      injection Hn as ->.
      rewrite (cut_block "" (lines self) i j Hij) in Hnd.
      rewrite header_names_app, header_names_cons, Hh in Hnd.
      cbn [app] in Hnd. apply NoDup_remove_2 in Hnd.
      rewrite header_names_app in *.
      rewrite !in_app_iff in *. tauto.
    - pose proof (del_section_loop_fires s (lines self) (lines self) 0 None)
        as [_ Hf].
      rewrite Hloop in Hf. cbn [fst] in Hf.
      apply del_section_loop_false in Hloop. subst r.
      intros Hin. specialize (Hf (or_intror Hin)). discriminate. }
  split; [exact Hgone|]. split.
  - apply del_section_absent. exact Hgone.
  - unfold get_option. f_equal.
    apply get_option_loop_unreachable; [discriminate|].
    intros l n Hin Hc [= ->]. apply Hgone.
    apply in_header_names. exists l. split; [exact Hin|].
    apply classify_section_header. exact Hc.
Qed.

Lemma del_section_removes_witness :
  NoDup (header_names doc_three)
  /\ (let self' := snd (del_section (Some "b") (mkIniFile "f" doc_three)) in
      ~ In "b" (header_names (lines self'))
      /\ del_section (Some "b") self' = (false, self')
      /\ get_option (Some "b") (Some "y") self' = (None, self')).
Proof.
  assert (Hnd : NoDup (header_names (lines (mkIniFile "f" doc_three)))).
  { vm_compute. repeat constructor; simpl; intuition discriminate. }
  split; [exact Hnd|].
  exact (del_section_removes (mkIniFile "f" doc_three) "b" (Some "y") Hnd).
Defined.

(** ** set_option: where a missing option goes *)

Lemma set_option_loop_quiet_absent (s : string) (opt val : pyval) :
  forall pre all n cur last,
    cur <> Some s ->
    (forall l, In l pre -> classify l <> SectionLine s) ->
    exists cur' last',
      set_option_loop (Some s) opt val all pre n cur last = inr (cur', last')
      /\ cur' <> Some s.
Proof.
  induction pre as [|l pre IH]; intros all n cur last Hcur Hpre.
  - exists cur, last. auto.
  - rewrite set_option_loop_step.
    assert (Hpre' : forall l0, In l0 pre -> classify l0 <> SectionLine s)
      by (intros; apply Hpre; simpl; auto).
    assert (Hl : classify l <> SectionLine s) by (apply Hpre; simpl; auto).
    apply pyval_eqb_neq in Hcur as Hcs.
    destruct (classify l) as [| |o v|n0|]; rewrite ?Hcs; cbn [andb]; auto.
    apply IH; [congruence|exact Hpre'].
Qed.

Lemma set_option_loop_quiet_body (sec val : pyval) (o : string) :
  forall body all n cur last,
    (forall l, In l body ->
       (forall n', classify l <> SectionLine n')
       /\ (forall v, classify l <> OptionLine o v)) ->
    exists last',
      set_option_loop sec (Some o) val all body n cur last = inr (cur, last').
Proof.
  induction body as [|l body IH]; intros all n cur last Hbody.
  - exists last. reflexivity.
  - rewrite set_option_loop_step.
    assert (Hbody' : forall l0, In l0 body ->
               (forall n', classify l0 <> SectionLine n')
               /\ (forall v, classify l0 <> OptionLine o v))
      by (intros; apply Hbody; simpl; auto).
    destruct (Hbody l (or_introl eq_refl)) as [Hns Hno].
    destruct (classify l) as [| |o1 v1|n0|] eqn:Hc; auto.
    + destruct (pyval_eqb cur sec && pyval_eqb (Some o1) (Some o)) eqn:Hm; auto.
      apply andb_prop in Hm. destruct Hm as [_ Ho%pyval_eqb_eq].
      injection Ho as ->. exfalso. exact (Hno v1 eq_refl).
    + exfalso. exact (Hns n0 eq_refl).
Qed.

Lemma set_option_loop_inr_indep (sec opt val : pyval) (all all' : list string) :
  forall pre n cur last st,
    set_option_loop sec opt val all pre n cur last = inr st ->
    set_option_loop sec opt val all' pre n cur last = inr st.
Proof.
  induction pre as [|l pre IH]; intros n cur last st H; [exact H|].
  rewrite set_option_loop_step in *.
  destruct (classify l) as [| |o v|n0|]; auto.
  - destruct (pyval_eqb cur sec && pyval_eqb (Some o) opt);
      [discriminate|auto].
  - destruct (pyval_eqb cur sec); [discriminate|auto].
Qed.

Lemma set_option_loop_inr_recorded (sec opt val : pyval) (all : list string) :
  forall pre done cur last cur' last',
    firstn (length done + length pre) all = (done ++ pre)%list ->
    set_option_loop sec opt val all pre (length done) cur last
    = inr (cur', last') ->
    recorded_upto all (length done) last ->
    recorded_upto all (length done + length pre) last'.
Proof.
  induction pre as [|l pre IH]; intros done cur last cur' last' Hall H Hinv.
  - cbn [set_option_loop] in H. injection H as <- <-.
    cbn [length]. rewrite Nat.add_0_r. exact Hinv.
  - rewrite set_option_loop_step in H.
    pose proof (IH (done ++ [l])%list) as IH'.
    rewrite length_snoc in IH'. cbn [length] in *.
    replace (length done + S (length pre))
      with (S (length done) + length pre) in * by lia.
    assert (Hall' : firstn (S (length done) + length pre) all
                    = ((done ++ [l]) ++ pre)%list)
      by (rewrite <- snoc_app; exact Hall).
    assert (Hnth : nth (length done) all "" = l).
    { rewrite <- (firstn_skipn (S (length done) + length pre) all), Hall.
      rewrite app_nth1 by (rewrite length_app; simpl; lia).
      apply nth_middle_done. }
    assert (Hrec : forall b, recorded l = b ->
                     recorded (nth (length done) all "") = b)
      by (intros b <-; rewrite Hnth; reflexivity).
    unfold recorded in Hrec.
    destruct (classify l) as [| |o v|n0|] eqn:Hc.
    + eapply IH'; eauto using recorded_upto_skip.
    + eapply IH'; eauto using recorded_upto_hit.
    + destruct (pyval_eqb cur sec && pyval_eqb (Some o) opt);
        [discriminate|]. eapply IH'; eauto using recorded_upto_hit.
    + destruct (pyval_eqb cur sec); [discriminate|].
      eapply IH'; eauto using recorded_upto_hit.
    + eapply IH'; eauto using recorded_upto_skip.
Qed.

(** The scan of a document up to the end of the target section, when the
    option is not in it. *)
Lemma set_option_scan_section (s o : string) (val : pyval)
    (pre body : list string) (h : string) (k : nat) :
  classify h = SectionLine s ->
  (forall l, In l pre -> classify l <> SectionLine s) ->
  (forall l, In l body ->
     (forall n', classify l <> SectionLine n')
     /\ (forall v, classify l <> OptionLine o v)) ->
  last_recorded (pre ++ h :: body) k ->
  length pre <= k < length (pre ++ h :: body)
  /\ forall all,
       set_option_loop (Some s) (Some o) val all (pre ++ h :: body) 0 None 0
       = inr (Some s, k).
Proof.
  intros Hh Hpre Hbody Hk.
  set (P := (pre ++ h :: body)%list) in *.
  assert (Hscan : exists last,
             set_option_loop (Some s) (Some o) val P P 0 None 0
             = inr (Some s, last)).
  { destruct (set_option_loop_quiet_absent s (Some o) val pre P 0 None 0)
      as (cur1 & last1 & H1 & Hcur1); [discriminate|exact Hpre|].
    destruct (set_option_loop_quiet_body (Some s) val o body P
                (S (0 + length pre)) (Some s) (0 + length pre) Hbody)
      as (last2 & H2).
    exists last2. subst P.
    rewrite (set_option_loop_app _ _ _ _ _ _ _ _ _ _ _ H1).
    rewrite set_option_loop_step, Hh.
    apply pyval_eqb_neq in Hcur1. rewrite Hcur1. exact H2. }
  destruct Hscan as [last Hscan].
  assert (Hlast : last_recorded P last).
  { apply (set_option_loop_inr_recorded (Some s) (Some o) val P P []
             None 0 (Some s) last).
    - apply firstn_all.
    - exact Hscan.
    - split; [simpl; intros; lia|auto]. }
  assert (last = k) as -> by (eapply last_recorded_unique; eauto).
  split.
  - destruct Hk as [Hgap Hrec].
    assert (HP : length P = length pre + S (length body))
      by (subst P; rewrite length_app; reflexivity).
    split.
    + destruct (Nat.le_gt_cases (length pre) k) as [|Hlt]; [assumption|].
      exfalso. specialize (Hgap (length pre)).
      subst P. rewrite nth_middle_done in Hgap.
      unfold recorded in Hgap. rewrite Hh in Hgap.
      rewrite length_app in Hgap. simpl in Hgap.
      assert (true = false) by (apply Hgap; lia). discriminate.
    + destruct Hrec as [->|[Hlt _]]; [lia|exact Hlt].
  - intros all. eapply set_option_loop_inr_indep. exact Hscan.
Qed.

(** X7. When the target section is the last section of the document and
    does not hold the option, [set_option] splices the text of the
    canonical option line right after the last recorded line of the
    document (comment, option or section header), which is the header of
    the section or a line after it. *)
Theorem set_option_last_section (self : IniFile) (s o : string) (val : pyval)
    (pre body : list string) (h : string) (k : nat) :
  lines self = (pre ++ h :: body)%list ->
  classify h = SectionLine s ->
  (forall l, In l pre -> classify l <> SectionLine s) ->
  (forall l, In l body ->
     (forall n', classify l <> SectionLine n')
     /\ (forall v, classify l <> OptionLine o v)) ->
  last_recorded (lines self) k ->
  length pre <= k < length (lines self)
  /\ lines (set_option (Some s) (Some o) val self)
     = (firstn (k + 1) (lines self) ++ chars (option_line (Some o) val)
          ++ skipn (k + 1) (lines self))%list.
Proof.
  intros Hl Hh Hpre Hbody Hk. rewrite Hl in *.
  destruct (set_option_scan_section s o val pre body h k Hh Hpre Hbody Hk)
    as [Hrange Hscan].
  split; [exact Hrange|].
  unfold set_option. rewrite Hl, Hscan, pyval_eqb_refl. reflexivity.
Qed.

Lemma set_option_last_section_witness :
  last_recorded doc_last 3
  /\ lines (set_option (Some "b") (Some "z") (Some "9") (mkIniFile "f" doc_last))
     = ([ln "[a]"; ln "x=1"; ln "[b]"; ln "y=2"] ++ chars (ln "z = 9")
          ++ [ln ""; ln "junk"])%list.
Proof.
  assert (Hk : last_recorded (lines (mkIniFile "f" doc_last)) 3).
  { split.
    - intros j Hj. simpl in Hj.
      destruct j as [|[|[|[|[|[|j]]]]]]; try lia; reflexivity.
    - right. split; [simpl; lia|reflexivity]. }
  split; [exact Hk|].
  apply (set_option_last_section (mkIniFile "f" doc_last) "b" "z" (Some "9")
           [ln "[a]"; ln "x=1"] [ln "y=2"; ln ""; ln "junk"] (ln "[b]") 3).
  - reflexivity.
  - reflexivity.
  - intros l Hin.
    repeat (destruct Hin as [<-|Hin]; [vm_compute; discriminate|]).
    destruct Hin.
  - intros l Hin.
    repeat (destruct Hin as [<-|Hin];
            [split; intros; vm_compute; discriminate|]).
    destruct Hin.
  - exact Hk.
Defined.

(** X8. When the header of the target section is not the first line of the
    document, the section does not hold the option and another header
    follows, [set_option] splices the text of the canonical option line
    inside the target section: right after its last recorded line, at or
    after its header and before the next header. *)
Theorem set_option_inner_section (self : IniFile) (s o n' : string)
    (val : pyval) (pre body post : list string) (h h' : string) (k : nat) :
  lines self = (pre ++ h :: body ++ h' :: post)%list ->
  pre <> [] ->
  classify h = SectionLine s ->
  (forall l, In l pre -> classify l <> SectionLine s) ->
  (forall l, In l body ->
     (forall n', classify l <> SectionLine n')
     /\ (forall v, classify l <> OptionLine o v)) ->
  classify h' = SectionLine n' ->
  last_recorded (pre ++ h :: body) k ->
  length pre <= k < length (pre ++ h :: body)
  /\ lines (set_option (Some s) (Some o) val self)
     = (firstn (k + 1) (lines self) ++ chars (option_line (Some o) val)
          ++ skipn (k + 1) (lines self))%list.
Proof.
  intros Hl Hne Hh Hpre Hbody Hh' Hk.
  destruct (set_option_scan_section s o val pre body h k Hh Hpre Hbody Hk)
    as [Hrange Hscan].
  split; [exact Hrange|].
  unfold set_option. rewrite Hl.
  replace (pre ++ h :: body ++ h' :: post)%list
    with ((pre ++ h :: body) ++ h' :: post)%list
    by (rewrite <- app_assoc; reflexivity).
  rewrite (set_option_loop_app _ _ _ _ _ _ _ _ _ _ _ (Hscan _)).
  rewrite set_option_loop_step, Hh', pyval_eqb_refl.
  assert (Hpos : (0 <? k)%nat = true).
  { apply Nat.ltb_lt. destruct pre; [congruence|]. simpl in Hrange. lia. }
  rewrite Hpos. reflexivity.
Qed.

Lemma set_option_inner_section_witness :
  last_recorded [ln "# top"; ln "[a]"; ln "x=1"; ln ""] 2
  /\ lines (set_option (Some "a") (Some "z") (Some "9")
              (mkIniFile "f" doc_inner))
     = ([ln "# top"; ln "[a]"; ln "x=1"] ++ chars (ln "z = 9")
          ++ [ln ""; ln "[b]"; ln "y=2"])%list.
Proof.
  assert (Hk : last_recorded ([ln "# top"] ++ ln "[a]" :: [ln "x=1"; ln ""]) 2).
  { split.
    - intros j Hj. simpl in Hj.
      destruct j as [|[|[|[|j]]]]; try lia; reflexivity.
    - right. split; [simpl; lia|reflexivity]. }
  split; [exact Hk|].
  apply (set_option_inner_section (mkIniFile "f" doc_inner) "a" "z" "b"
           (Some "9") [ln "# top"] [ln "x=1"; ln ""] [ln "y=2"]
           (ln "[a]") (ln "[b]") 2).
  - reflexivity.
  - discriminate.
  - reflexivity.
  - intros l Hin.
    repeat (destruct Hin as [<-|Hin]; [vm_compute; discriminate|]).
    destruct Hin.
  - intros l Hin.
    repeat (destruct Hin as [<-|Hin];
            [split; intros; vm_compute; discriminate|]).
    destruct Hin.
  - reflexivity.
  - exact Hk.
Defined.

Lemma del_option_iff_get_witness :
  del_option (Some "z") (Some "k") (mkIniFile "f" doc_twice)
  = (false, mkIniFile "f" doc_twice).
Proof.
  apply (del_option_iff_get (mkIniFile "f" doc_twice) (Some "z") (Some "k")).
  reflexivity.
Defined.

(** ** set_option: an option that is present, read back *)

Lemma rstrip_app_nl (s : string) : rstrip (s ++ nl) = rstrip s.
Proof.
  induction s as [|c s IH]; [reflexivity|].
  cbn [append rstrip]. rewrite IH. reflexivity.
Qed.

Lemma lstrip_rstrip (s : string) : lstrip (rstrip s) = rstrip (lstrip s).
Proof.
  induction s as [|c s IH]; [reflexivity|].
  destruct (is_space c) eqn:Hc.
  - cbn [lstrip rstrip]. rewrite Hc. rewrite <- IH.
    destruct (rstrip s) as [|a r]; [reflexivity|].
    cbn [lstrip]. rewrite Hc. reflexivity.
  - cbn [lstrip]. rewrite Hc. rewrite rstrip_cons_nonspace by exact Hc.
    cbn [lstrip]. rewrite Hc. reflexivity.
Qed.

Lemma option_value_strip (x : string) :
  lstrip (rstrip (String " " (x ++ nl))) = strip x.
Proof.
  rewrite lstrip_rstrip.
  change (lstrip (String " " (x ++ nl))) with (lstrip (x ++ nl)).
  rewrite <- lstrip_rstrip, rstrip_app_nl, lstrip_rstrip. reflexivity.
Qed.

(** The canonical option line written over an option line with key [o] is
    an option line with key [o] whose value is the stripped text of the
    value up to its first line feed. *)
Lemma option_line_classify_value (l o v0 : string) (val : pyval) :
  classify l = OptionLine o v0 ->
  classify (option_line (Some o) val)
  = OptionLine o (fst (span not_newline (strip (str_of val)))).
Proof.
  intros Hc. apply classify_option_inv in Hc. destruct Hc as (Hrx & _ & Hcom).
  apply rx_option_inv in Hrx. destruct Hrx as (c & o' & r1 & -> & Hsp).
  apply span_spec in Hsp. destruct Hsp as [Hl Ho].
  assert (Hstrip :
    strip (option_line (Some (String c o')) val)
    = String c o' ++ String " " (String "=" (rstrip (String " " (str_of val ++ nl))))).
  { unfold strip, option_line. cbn [str_of append lstrip].
    pose proof Ho as Ho'. cbn [all_chars] in Ho'.
    apply andb_prop in Ho'. destruct Ho' as [Hc _].
    rewrite (opt_char_nonspace c Hc).
    change (String c (o' ++ String " " (String "=" (String " " (str_of val ++ nl)))))
      with (String c o' ++ String " " (String "=" (String " " (str_of val ++ nl)))).
    rewrite (rstrip_opt_prefix _ _ Ho). f_equal.
    set (tail := String " " (str_of val ++ nl)).
    cbn [rstrip]. destruct (rstrip tail); reflexivity. }
  unfold classify. rewrite Hstrip. cbn [append String.length Nat.eqb].
  rewrite Hl in Hcom. cbn [append] in Hcom.
  rewrite (is_comment_head c _ (o' ++ r1)), Hcom.
  unfold rx_option.
  change (String c (o' ++ ?x)) with (String c o' ++ x).
  rewrite (span_prefix opt_char (String c o') _ Ho) by reflexivity.
  change (lstrip (String " " (String "=" ?x))) with (String "=" x).
  cbv beta iota. rewrite option_value_strip. reflexivity.
Qed.

Lemma set_option_loop_inr_get (sec opt val : pyval) (all R : list string) :
  forall pre n cur last cur' last',
    set_option_loop sec opt val all pre n cur last = inr (cur', last') ->
    get_option_loop sec opt (pre ++ R) cur = get_option_loop sec opt R cur'.
Proof.
  induction pre as [|l pre IH]; intros n cur last cur' last' H.
  - cbn [set_option_loop] in H. injection H as <- <-. reflexivity.
  - cbn [app]. rewrite set_option_loop_step in H. rewrite get_option_loop_step.
    destruct (classify l) as [| |o v|n0|]; eauto.
    + destruct (pyval_eqb cur sec && pyval_eqb (Some o) opt);
        [discriminate|eauto].
    + destruct (pyval_eqb cur sec); [discriminate|eauto].
Qed.

(** X9. In a document that uses no section name twice, when [get_option]
    finds the option, [set_option] rewrites the option line that
    [get_option] read, in place, to the canonical option line and touches
    no other line; [get_option] then returns the new value as the line
    pattern reads it back: stripped and cut at its first line feed. *)
Theorem set_option_get_roundtrip (self : IniFile) (sec val : pyval)
    (o v : string) :
  NoDup (section_names (lines self)) ->
  fst (get_option sec (Some o) self) = Some v ->
  (exists pre l post,
     lines self = (pre ++ l :: post)%list
     /\ classify l = OptionLine o v
     /\ set_option sec (Some o) val self
        = with_lines self (pre ++ option_line (Some o) val :: post))
  /\ fst (get_option sec (Some o) (set_option sec (Some o) val self))
     = Some (fst (span not_newline (strip (str_of val)))).
Proof.
  intros Hnd Hget. cbn [get_option fst] in Hget.
  destruct (get_option_loop_found sec val o v (lines self) [] None Hnd)
    as (pre & l & post & Hl & Hc & Hpre); [discriminate|exact Hget|].
  pose proof (set_option_replaces self sec val pre post l o v Hl Hc Hpre)
    as Hset.
  split; [exists pre, l, post; auto|].
  rewrite Hset. cbn [get_option fst lines with_lines].
  destruct (Hpre [] 0 0) as [last' Hscan].
  rewrite (set_option_loop_inr_get _ _ _ _ _ _ _ _ _ _ _ Hscan).
  rewrite get_option_loop_step, (option_line_classify_value l o v val Hc).
  rewrite !pyval_eqb_refl. reflexivity.
Qed.

Lemma set_option_get_roundtrip_witness :
  fst (get_option (Some "t") (Some "k")
         (set_option (Some "t") (Some "k") (Some " new value ")
            (mkIniFile "f" doc_twice)))
  = Some "new value".
Proof.
  apply (set_option_get_roundtrip (mkIniFile "f" doc_twice) (Some "t")
           (Some " new value ") "k" "3").
  - vm_compute. repeat constructor; simpl; intuition discriminate.
  - reflexivity.
Defined.

(** X10. In a document that uses no section name twice, [set_option] on an
    option that [get_option] finds is idempotent: a second call with the
    same arguments leaves the document of the first call as it is. *)
Theorem set_option_present_idempotent (self : IniFile) (sec val : pyval)
    (o v : string) :
  NoDup (section_names (lines self)) ->
  fst (get_option sec (Some o) self) = Some v ->
  set_option sec (Some o) val (set_option sec (Some o) val self)
  = set_option sec (Some o) val self.
Proof. exact (set_option_twice_distinct self sec val o v). Qed.

Lemma set_option_present_idempotent_witness :
  set_option (Some "s") (Some "k") (Some "9")
    (set_option (Some "s") (Some "k") (Some "9") (mkIniFile "f" doc_twice))
  = set_option (Some "s") (Some "k") (Some "9") (mkIniFile "f" doc_twice).
Proof.
  apply (set_option_present_idempotent (mkIniFile "f" doc_twice) (Some "s")
           (Some "9") "k" "1").
  - vm_compute. repeat constructor; simpl; intuition discriminate.
  - reflexivity.
Defined.

(** ** set_option: text spliced as characters *)

(** X11. When the header of the target section is the first line of the
    document and only blank or unclassified lines lie between it and the
    next header, [set_option] splices the text of the canonical option
    line in front of the whole document, one list element per character:
    the header on line 0 is taken for no recorded line. *)
Theorem set_option_first_line_header (self : IniFile) (s n' : string)
    (opt val : pyval) (h h' : string) (body post : list string) :
  lines self = (h :: body ++ h' :: post)%list ->
  classify h = SectionLine s ->
  (forall l, In l body -> recorded l = false) ->
  classify h' = SectionLine n' ->
  lines (set_option (Some s) opt val self)
  = (chars (option_line opt val) ++ lines self)%list.
Proof. exact (set_option_header_on_first_line self s n' opt val h h' body post). Qed.

Lemma set_option_first_line_header_witness :
  lines (set_option (Some "a") (Some "x") (Some "1") (mkIniFile "f" doc_ab))
  = (chars (ln "x = 1") ++ doc_ab)%list.
Proof.
  apply (set_option_first_line_header (mkIniFile "f" doc_ab) "a" "b"
           (Some "x") (Some "1") (ln "[a]") (ln "[b]") [] []).
  - reflexivity.
  - reflexivity.
  - intros l [].
  - reflexivity.
Defined.

Lemma classify_char (c : ascii) :
  match classify (String c "") with
  | Blank | Comment | Other => True
  | OptionLine _ _ | SectionLine _ => False
  end.
Proof. destruct c as [[] [] [] [] [] [] [] []]; vm_compute; exact I. Qed.

Lemma classify_chars (s l : string) :
  In l (chars s) ->
  (forall n, classify l <> SectionLine n)
  /\ (forall o v, classify l <> OptionLine o v).
Proof.
  induction s as [|c s IH]; cbn [chars]; [intros []|].
  intros [<-|Hin]; [|exact (IH Hin)].
  pose proof (classify_char c) as Hc.
  destruct (classify (String c "")); try contradiction;
    split; intros; discriminate.
Qed.

(** X12. When no line of the document is a header of section [s],
    [set_option] appends the header and the option line one list element
    per character, so no line of the document it leaves is a header of
    [s] either: until the document is reloaded, [get_option] does not find
    the option just set and [del_option] does not remove it. *)
Theorem set_option_new_section_unread (self : IniFile) (s : string)
    (opt val opt' : pyval) :
  (forall l, In l (lines self) -> classify l <> SectionLine s) ->
  let self' := set_option (Some s) opt val self in
  (forall l, In l (lines self') -> classify l <> SectionLine s)
  /\ get_option (Some s) opt' self' = (None, self')
  /\ del_option (Some s) opt' self' = (false, self').
Proof.
  intros Habs self'.
  assert (Hstill : forall l, In l (lines self') -> classify l <> SectionLine s).
  { subst self'. unfold set_option.
    destruct (set_option_loop_quiet_absent s opt val (lines self) (lines self)
                0 None 0) as (cur & last & Hloop & Hcur);
      [discriminate|exact Habs|].
    rewrite Hloop. apply pyval_eqb_neq in Hcur. rewrite Hcur.
    cbn [negb lines with_lines]. intros l Hin.
    rewrite !in_app_iff in Hin.
    destruct Hin as [[[Hin|Hin]|Hin]|Hin].
    - exact (Habs l Hin).
    - destruct ((0 <? pred (length (lines self)))%nat
                && (Z.of_nat (pred (length (lines self))) - Z.of_nat last <? 2)%Z);
        [|destruct Hin].
      apply (classify_chars nl l Hin).
    - apply (classify_chars _ l Hin).
    - apply (classify_chars _ l Hin). }
  assert (Hget : get_option_loop (Some s) opt' (lines self') None = None).
  { apply get_option_loop_unreachable; [discriminate|].
    intros l n Hin Hc [= ->]. exact (Hstill l Hin Hc). }
  split; [exact Hstill|]. split.
  - unfold get_option. rewrite Hget. reflexivity.
  - unfold del_option.
    pose proof (del_option_loop_get (Some s) opt' (lines self') (lines self')
                  0 None) as Hdel.
    rewrite Hget in Hdel. rewrite Hdel. reflexivity.
Qed.

Lemma set_option_new_section_unread_witness :
  get_option (Some "c") (Some "z")
    (set_option (Some "c") (Some "z") (Some "1") (mkIniFile "f" doc_ab))
  = (None, set_option (Some "c") (Some "z") (Some "1") (mkIniFile "f" doc_ab)).
Proof.
  apply (set_option_new_section_unread (mkIniFile "f" doc_ab) "c"
           (Some "z") (Some "1") (Some "z")).
  intros l Hin.
  repeat (destruct Hin as [<-|Hin]; [vm_compute; discriminate|]).
  destruct Hin.
Defined.

(** ** do_ini *)

Ltac finish_do_ini globals fs :=
  cbn [fst];
  repeat match goal with b : bool |- _ => destruct b end;
  cbn [andb negb]; try reflexivity;
  unfold save;
  (destruct (globals "filepath") as [p|]; [destruct (fs p)|]);
  reflexivity.

Lemma do_ini_unfold (globals : string -> option string) (check_mode : bool)
    (fs : FS) (filename : string) (section option value : pyval)
    (state : string) (backup : bool) :
  do_ini globals check_mode fs filename section option value state backup
  = let ini := IniFile_init fs filename in
    let changed :=
      if String.eqb state "present"
      then truthy option
           && negb (pyval_eqb value (fst (get_option section option ini)))
      else if String.eqb state "absent"
      then if truthy section && negb (truthy option)
           then fst (del_section section ini)
           else if truthy option
           then fst (del_option section option ini)
           else false
      else false in
    (changed,
     if changed && negb check_mode
     then ((if backup then [backup_local filename] else [])
             ++ [fail_json ("Can't create " ++ filename)])%list
     else []).
Proof.
  unfold do_ini. cbv zeta.
  set (ini := IniFile_init fs filename).
  destruct (String.eqb state "present") eqn:Hp.
  - apply String.eqb_eq in Hp. subst state.
    change (String.eqb "present" "absent") with false. cbv iota.
    destruct (truthy option
              && negb (pyval_eqb value (fst (get_option section option ini))));
      cbv iota; finish_do_ini globals fs.
  - cbv iota.
    destruct (String.eqb state "absent");
      [destruct (truthy section && negb (truthy option));
       [destruct (del_section section ini) as [c i]
       |destruct (truthy option);
        [destruct (del_option section option ini) as [c i]|]]|];
      finish_do_ini globals fs.
Qed.

Lemma do_ini_changed (globals : string -> option string) (check_mode : bool)
    (fs : FS) (filename : string) (section option value : pyval)
    (state : string) (backup : bool) :
  fst (do_ini globals check_mode fs filename section option value state backup)
  = let ini := IniFile_init fs filename in
    if String.eqb state "present"
    then truthy option
         && negb (pyval_eqb value (fst (get_option section option ini)))
    else if String.eqb state "absent"
    then if truthy section && negb (truthy option)
         then fst (del_section section ini)
         else if truthy option
         then fst (del_option section option ini)
         else false
    else false.
Proof. rewrite do_ini_unfold. reflexivity. Qed.

(** X13. Outside check mode every change [do_ini] decides on ends in the
    call [fail_json("Can't create <filename>")], after [backup_local] when
    a backup is asked for, because [save] raises; in check mode, or when
    nothing changes, [do_ini] makes no call on the module. *)
Theorem do_ini_calls (globals : string -> option string) (check_mode : bool)
    (fs : FS) (filename : string) (section option value : pyval)
    (state : string) (backup : bool) :
  snd (do_ini globals check_mode fs filename section option value state backup)
  = if fst (do_ini globals check_mode fs filename section option value
              state backup)
       && negb check_mode
    then ((if backup then [backup_local filename] else [])
            ++ [fail_json ("Can't create " ++ filename)])%list
    else [].
Proof. rewrite do_ini_unfold. reflexivity. Qed.

(** The value of [changed] when [state='absent'] and the deletion has
    been attempted. *)
Lemma do_ini_absent_changed (globals : string -> option string)
    (check_mode : bool) (fs : FS) (filename : string)
    (section option value : pyval) (backup : bool) :
  let ini := IniFile_init fs filename in
  let changed :=
    fst (do_ini globals check_mode fs filename section option value
           "absent" backup) in
  (truthy option = true ->
   (changed = true <-> fst (get_option section option ini) <> None))
  /\ (truthy option = false ->
      (changed = true <->
       exists s, section = Some s /\ s <> ""
                 /\ In s (header_names (lines ini)))).
Proof.
  intros ini changed. subst changed. rewrite do_ini_changed. fold ini.
  change (String.eqb "absent" "present") with false.
  change (String.eqb "absent" "absent") with true. cbv iota zeta.
  split; intros Hopt; rewrite Hopt; cbn [negb].
  - rewrite andb_false_r.
    pose proof (del_option_loop_get section option (lines ini) (lines ini)
                  0 None) as H.
    unfold del_option, get_option. cbn [fst].
    destruct (get_option_loop section option (lines ini) None);
      destruct (del_option_loop section option (lines ini) (lines ini) 0 None);
      cbn [fst]; split; intros; congruence.
  - rewrite andb_true_r.
    destruct section as [s|]; cbn [truthy].
    + destruct (String.eqb_spec s "") as [->|Hs]; cbn [negb].
      * split; [discriminate|]. intros (s' & [= <-] & Hne & _). congruence.
      * unfold del_section.
        pose proof (del_section_loop_fires s (lines ini) (lines ini) 0 None)
          as H.
        destruct (del_section_loop (Some s) (lines ini) (lines ini) 0 None)
          as [c ls].
        cbn [fst] in *. rewrite H. split.
        -- intros [E|E]; [congruence|]. exists s. auto.
        -- intros (s' & [= <-] & _ & Hin). auto.
    + split; [discriminate|]. intros (s' & E & _). discriminate.
Qed.

(** X14. With [state='absent'], say there is something to delete in the
    loaded file when, for a non-empty option, [get_option] finds it in
    the section, or, for an empty or missing option, the section name is
    non-empty and some line of the file is a header of the section.  In
    check mode [do_ini] returns True, with no call on the module, when
    there is something to delete; in every mode it returns False, with no
    call on the module, when there is nothing to delete. *)
Theorem do_ini_absent (globals : string -> option string) (check_mode : bool)
    (fs : FS) (filename : string) (section option value : pyval)
    (backup : bool) :
  let ini := IniFile_init fs filename in
  let to_delete :=
    (truthy option = true /\ fst (get_option section option ini) <> None)
    \/ (truthy option = false
        /\ exists s, section = Some s /\ s <> ""
                     /\ In s (header_names (lines ini))) in
  (to_delete ->
   do_ini globals true fs filename section option value "absent" backup
   = (true, []))
  /\ (~ to_delete ->
      do_ini globals check_mode fs filename section option value
        "absent" backup
      = (false, [])).
Proof.
  intros ini to_delete. split; intros H.
  - assert (Hc : fst (do_ini globals true fs filename section option value
                        "absent" backup) = true).
    { destruct (do_ini_absent_changed globals true fs filename section option
                  value backup) as [Hopt Hsec].
      destruct H as [[Ho Hg]|[Ho Hs]]; [apply (Hopt Ho)|apply (Hsec Ho)];
        assumption. }
    rewrite do_ini_unfold in *. cbv zeta in *. cbn [fst negb] in *.
    rewrite andb_false_r, Hc. reflexivity.
  - assert (Hc : fst (do_ini globals check_mode fs filename section option
                        value "absent" backup) = false).
    { destruct (fst (do_ini globals check_mode fs filename section option
                       value "absent" backup)) eqn:E; [|reflexivity].
      exfalso. apply H.
      destruct (do_ini_absent_changed globals check_mode fs filename section
                  option value backup) as [Hopt Hsec].
      destruct (truthy option) eqn:Ho.
      - left. split; [reflexivity|]. apply (Hopt eq_refl). exact E.
      - right. split; [reflexivity|]. apply (Hsec eq_refl). exact E. }
    rewrite do_ini_unfold in *. cbv zeta in *. cbn [fst] in *.
    rewrite Hc. reflexivity.
Qed.

Lemma do_ini_absent_witness :
  do_ini (fun _ => None) true doc_fs "/etc/conf" (Some "b") (Some "y")
    None "absent" true = (true, [])
  /\ do_ini (fun _ => None) false doc_fs "/etc/conf" (Some "zz") None
       None "absent" true = (false, []).
Proof.
  pose proof (do_ini_absent (fun _ => None) true doc_fs "/etc/conf"
                (Some "b") (Some "y") None true) as Hyes.
  pose proof (do_ini_absent (fun _ => None) false doc_fs "/etc/conf"
                (Some "zz") None None true) as Hno.
  cbv zeta in Hyes, Hno.
  destruct Hyes as [Hyes _]. destruct Hno as [_ Hno]. split.
  - apply Hyes. left. split; [reflexivity|]. vm_compute. discriminate.
  - apply Hno. intros [[Ho _]|[_ (s & [= <-] & _ & Hin)]].
    + discriminate.
    + vm_compute in Hin. intuition discriminate.
Defined.

(** X15. [do_ini] is a no-op, with no change reported and no call on the
    module, when the option is empty or missing and either the state is
    not ['absent'] or the section is empty or missing too; and, for any
    option, when the state is neither ['present'] nor ['absent']. *)
Theorem do_ini_noop (globals : string -> option string) (check_mode : bool)
    (fs : FS) (filename : string) (section option value : pyval)
    (state : string) (backup : bool) :
  (truthy option = false /\ (state <> "absent" \/ truthy section = false))
  \/ (state <> "present" /\ state <> "absent") ->
  do_ini globals check_mode fs filename section option value state backup
  = (false, []).
Proof.
  intros H. rewrite do_ini_unfold. cbv zeta.
  destruct (String.eqb_spec state "present") as [Hp|Hp];
    destruct (String.eqb_spec state "absent") as [Ha|Ha].
  - subst state. discriminate.
  - destruct H as [[Ho _]|[Hn _]]; [rewrite Ho; reflexivity|contradiction].
  - destruct H as [[Ho [Hn|Hs]]|[_ Hn]]; try contradiction.
    rewrite Ho, Hs. reflexivity.
  - reflexivity.
Qed.

Lemma do_ini_noop_witness :
  do_ini (fun _ => None) false doc_fs "/etc/conf" (Some "a") None (Some "1")
    "present" true = (false, [])
  /\ do_ini (fun _ => None) false doc_fs "/etc/conf" (Some "a") (Some "x")
       (Some "1") "latest" true = (false, []).
Proof.
  split.
  - apply do_ini_noop. left. split; [reflexivity|left; discriminate].
  - apply do_ini_noop. right. split; discriminate.
Defined.

(** ** del_section: a section name used more than once *)

Lemma del_section_loop_skip_same (s : string) (all mid rest : list string) :
  forall lineno start,
    (forall l n, In l mid -> header_of l = Some n -> n = s) ->
    exists start',
      del_section_loop (Some s) all (mid ++ rest) lineno start
      = del_section_loop (Some s) all rest (lineno + length mid) start'.
Proof.
  induction mid as [|l mid IH]; intros lineno start Hmid.
  - exists start. cbn [app length]. rewrite Nat.add_0_r. reflexivity.
  - cbn [app length]. rewrite del_section_loop_step.
    replace (lineno + S (length mid)) with (S lineno + length mid) by lia.
    assert (Hmid' : forall l0 n, In l0 mid -> header_of l0 = Some n -> n = s)
      by (intros; eapply Hmid; simpl; eauto).
    destruct (header_of l) as [n|] eqn:Hh; [|apply IH; exact Hmid'].
    rewrite (Hmid l n (or_introl eq_refl) Hh), pyval_eqb_refl.
    apply IH. exact Hmid'.
Qed.

(** X16. Whether or not names repeat, [del_section] removes one block: it
    starts at the last header of the section that comes before the first
    header of another name following a header of the section, and ends
    before that other header, or at the end of the document.  Earlier
    headers of the same section, and the lines under them, are kept. *)
Theorem del_section_last_header (self : IniFile) (s : string)
    (pre mid body post : list string) (h : string) :
  lines self = (pre ++ mid ++ h :: body ++ post)%list ->
  (forall l n, In l pre -> header_of l = Some n -> n <> s) ->
  (forall l n, In l mid -> header_of l = Some n -> n = s) ->
  header_of h = Some s ->
  (forall l, In l body -> header_of l = None) ->
  (post = []
   \/ exists h' post' n',
        post = h' :: post' /\ header_of h' = Some n' /\ n' <> s) ->
  del_section (Some s) self = (true, with_lines self (pre ++ mid ++ post)).
Proof.
  intros Hl Hpre Hmid Hh Hbody Hpost.
  unfold del_section. rewrite Hl at 2.
  rewrite del_section_loop_skip_other
    by (intros l n Hin Hn [= ->]; exact (Hpre l s Hin Hn eq_refl)).
  destruct (del_section_loop_skip_same s (lines self) mid
              (h :: body ++ post) (0 + length pre) None Hmid) as [st ->].
  rewrite del_section_loop_step, Hh, pyval_eqb_refl.
  rewrite del_section_loop_skip_body by exact Hbody.
  replace (0 + length pre + length mid) with (length (pre ++ mid)%list)
    by (rewrite length_app; lia).
  assert (Hl' : lines self = ((pre ++ mid) ++ h :: body ++ post)%list)
    by (rewrite Hl, <- app_assoc; reflexivity).
  destruct Hpost as [-> | (h' & post' & n' & -> & Hh' & Hne)].
  - cbn [del_section_loop]. rewrite Hl', firstn_prefix, !app_nil_r.
    reflexivity.
  - rewrite del_section_loop_step, Hh'.
    assert (Hneq : pyval_eqb (Some n') (Some s) = false)
      by (apply pyval_eqb_neq; congruence).
    rewrite Hneq, Hl'. unfold del_slice. rewrite firstn_prefix.
    replace (Nat.max (length (pre ++ mid)%list) _)
      with (length ((pre ++ mid) ++ h :: body)%list)
      by (rewrite !length_app; simpl; lia).
    replace ((pre ++ mid) ++ h :: body ++ h' :: post')%list
      with (((pre ++ mid) ++ h :: body) ++ h' :: post')%list
      by (rewrite <- (app_assoc (pre ++ mid)); reflexivity).
    rewrite skipn_prefix, <- app_assoc. reflexivity.
Qed.

Lemma del_section_last_header_witness :
  del_section (Some "a")
    (mkIniFile "f" [ln "[a]"; ln "x=1"; ln "[a]"; ln "y=2"; ln "[b]"])
  = (true, mkIniFile "f" [ln "[a]"; ln "x=1"; ln "[b]"]).
Proof.
  apply (del_section_last_header
           (mkIniFile "f" [ln "[a]"; ln "x=1"; ln "[a]"; ln "y=2"; ln "[b]"])
           "a" [] [ln "[a]"; ln "x=1"] [ln "y=2"] [ln "[b]"] (ln "[a]")).
  - reflexivity.
  - intros l n [].
  - intros l n Hin.
    repeat (destruct Hin as [<-|Hin]; [vm_compute; congruence|]).
    destruct Hin.
  - reflexivity.
  - intros l [<-|[]]. reflexivity.
  - right. exists (ln "[b]"), [], "b".
    split; [reflexivity|]. split; [reflexivity|discriminate].
Defined.

(** ** set_option followed by del_option *)

Lemma set_option_loop_inr_del (sec opt val : pyval) (all all' R : list string) :
  forall pre n m cur last cur' last',
    set_option_loop sec opt val all pre n cur last = inr (cur', last') ->
    del_option_loop sec opt all' (pre ++ R) m cur
    = del_option_loop sec opt all' R (m + length pre) cur'.
Proof.
  induction pre as [|l pre IH]; intros n m cur last cur' last' H.
  - cbn [set_option_loop] in H. injection H as <- <-.
    cbn [app length]. rewrite Nat.add_0_r. reflexivity.
  - cbn [app length]. rewrite set_option_loop_step in H.
    rewrite del_option_loop_step.
    replace (m + S (length pre)) with (S m + length pre) by lia.
    destruct (classify l) as [| |o v|n0|]; eauto.
    + destruct (pyval_eqb cur sec && pyval_eqb (Some o) opt);
        [discriminate|eauto].
    + destruct (pyval_eqb cur sec); [discriminate|eauto].
Qed.

(** X17. In a document that uses no section name twice, when [get_option]
    finds the option, [del_option] after [set_option] removes the line
    that [set_option] wrote: the outcome is that of [del_option] on the
    original document, whatever value was set. *)
Theorem set_option_then_del_option (self : IniFile) (sec val : pyval)
    (o v : string) :
  NoDup (section_names (lines self)) ->
  fst (get_option sec (Some o) self) = Some v ->
  del_option sec (Some o) (set_option sec (Some o) val self)
  = del_option sec (Some o) self
  /\ fst (del_option sec (Some o) self) = true.
Proof.
  intros Hnd Hget. cbn [get_option fst] in Hget.
  destruct (get_option_loop_found sec val o v (lines self) [] None Hnd)
    as (pre & l & post & Hl & Hc & Hpre); [discriminate|exact Hget|].
  rewrite (set_option_replaces self sec val pre post l o v Hl Hc Hpre).
  destruct (Hpre [] 0 0) as [last' Hscan].
  assert (Hdel : forall l0 v0,
             classify l0 = OptionLine o v0 ->
             del_option_loop sec (Some o) (pre ++ l0 :: post)
               (pre ++ l0 :: post) 0 None
             = Some (pre ++ post)%list).
  { intros l0 v0 Hc0.
    rewrite (set_option_loop_inr_del _ _ _ _ _ _ _ _ 0 _ _ _ _ Hscan).
    rewrite del_option_loop_step, Hc0, !pyval_eqb_refl. cbn [andb Nat.add].
    rewrite del_index_middle. reflexivity. }
  unfold del_option. cbn [lines with_lines].
  rewrite (Hdel _ _ (option_line_classify_value l o v val Hc)).
  rewrite Hl, (Hdel _ _ Hc). split; reflexivity.
Qed.

Lemma set_option_then_del_option_witness :
  del_option (Some "s") (Some "k")
    (set_option (Some "s") (Some "k") (Some "9") (mkIniFile "f" doc_twice))
  = del_option (Some "s") (Some "k") (mkIniFile "f" doc_twice).
Proof.
  apply (set_option_then_del_option (mkIniFile "f" doc_twice) (Some "s")
           (Some "9") "k" "1").
  - vm_compute. repeat constructor; simpl; intuition discriminate.
  - reflexivity.
Defined.
